(** * Sr-90 experiment: particle simulation and dose-field engine

    A shallow embedding of the two front-ends of the repository,
    [simulator.js] (the standalone page) and [App.tsx] (the React
    component), and the properties of their dose model, particle update,
    emitter, heatmap sampler and reset handler.

    Conventions of the embedding.
    - A JavaScript [number] is a real number of [R]: [Math.exp],
      [Math.cos], [Math.sin], [Math.sqrt] and [Math.PI] are [exp], [cos],
      [sin], [sqrt] and [PI]; rounding of IEEE doubles is not modelled.
      Counters ([counts], [life]) only ever hold integers and are in [Z].
    - [Math.random()] reads the next element of a stream of draws, each
      in the interval [0, 1); code that draws runs in the monad [Rand].
    - The two front-ends share most of their text; where they differ the
      definitions take a [frontend] and match on it. *)

From Stdlib Require Import Reals Lra Lia ZArith List Bool String Ascii DecimalString.
Import ListNotations.
Local Open Scope R_scope.

(** ** Numbers and comparisons *)

Definition Rleb (a b : R) : bool := if Rle_dec a b then true else false.
Definition Rltb (a b : R) : bool := if Rlt_dec a b then true else false.

(** [Math.floor] and [Math.ceil]. *)
Definition Math_floor (v : R) : Z := Int_part v.
Definition Math_ceil (v : R) : Z := (- Int_part (- v))%Z.

(** [Math.log10], on the positive numbers the heatmap passes to it. *)
Definition Math_log10 (v : R) : R := ln v / ln 10.

(** ** Constants (simulator.js 2-19, App.tsx 10-33) *)

Definition CANVAS_WIDTH : R := 800.
Definition CANVAS_HEIGHT : R := 400.
Definition CENTER_Y : R := CANVAS_HEIGHT / 2.
Definition PX_PER_CM : R := 4.
Definition SOURCE_X : R := 80.
Definition SOURCE_TO_PMMA_CM : R := 10.
Definition PMMA_X : R := SOURCE_X + SOURCE_TO_PMMA_CM * PX_PER_CM.
Definition PMMA_VISUAL_THICKNESS : R := 10.
Definition PMMA_HEIGHT : R := 150.
Definition DETECTOR_WIDTH : R := 30.
Definition DETECTOR_HEIGHT : R := 60.

Definition K_CONST : R := 0.170.
Definition MU_CONST : R := 0.02.
Definition B_CONST : R := 0.15.

(** ** The two front-ends *)

Inductive frontend : Type :=
| SimulatorJs   (* src/simulator.js *)
| AppTsx.       (* the React component, App.tsx *)

(** ** Random draws *)

(** The outcomes of the successive calls of [Math.random()]. *)
Definition rng : Type := nat -> R.

Definition valid_rng (g : rng) : Prop := forall n, 0 <= g n < 1.

Definition Rand (A : Type) : Type := rng -> A * rng.

Definition ret {A} (a : A) : Rand A := fun g => (a, g).

Definition bind {A B} (m : Rand A) (f : A -> Rand B) : Rand B :=
  fun g => let (a, g') := m g in f a g'.

Definition Math_random : Rand R := fun g => (g 0%nat, fun n => g (S n)).

Declare Scope rand_scope.
Delimit Scope rand_scope with rand.
Notation "x <- m ;; k" := (bind m (fun x => k))
  (at level 61, m at next level, right associativity) : rand_scope.
Notation "' pat <- m ;; k" := (bind m (fun x => match x with pat => k end))
  (at level 61, pat pattern, m at next level, right associativity) : rand_scope.
Local Open Scope rand_scope.

(** ** DoseModel: [calculateDose] (simulator.js 317-329, App.tsx 63-82) *)

(** The value of [currentDose] when the noise is drawn: the pure dose. *)
Definition currentDose (distanceCm : R) (sourceOpen : bool) : R :=
  let currentDose := B_CONST in
  if sourceOpen then
    let d := Rmax distanceCm 1 / 100 in
    let attenuation := exp (- MU_CONST * d) in
    let geometricLoss := d * d in
    let sourceContribution := (K_CONST * attenuation) / geometricLoss in
    currentDose + sourceContribution
  else currentDose.

(** [n.toFixed(3)] for a number below 10^21 in magnitude: the integer [n]
    nearest to [1000 * v] (the larger one on a tie), written with a point
    before its last three digits. *)
Definition digits (n : Z) : string := NilZero.string_of_uint (N.to_uint (Z.to_N n)).

Fixpoint padStart (k : nat) (s : string) : string :=
  match k with
  | O => s
  | S k' => if (String.length s <? 4)%nat then padStart k' (String "0" s) else s
  end.

Definition toFixed3 (v : R) : string :=
  let neg := Rltb v 0 in
  let a := if neg then - v else v in
  let n := Int_part (a * 1000 + 1 / 2) in
  let m := padStart 3 (digits n) in
  let k := (String.length m - 3)%nat in
  ((if neg then "-" else "") ++ substring 0 k m ++ "." ++ substring k 3 m)%string.

(** [calculateDose]: the string it stores in [doseRateDisplay]
    (simulator.js) or passes to [setDoseRate] (App.tsx). *)
Definition calculateDose (distanceCm : R) (sourceOpen : bool) : Rand string :=
  let currentDose := currentDose distanceCm sourceOpen in
  r <- Math_random ;;
  let noise := 1 + (r * 0.04 - 0.02) in
  ret (toFixed3 (currentDose * noise)).

(** ** Particles (App.tsx 35-44) *)

Inductive ptype : Type := beta | photon | background_photon.

Definition ptype_eqb (a b : ptype) : bool :=
  match a, b with
  | beta, beta | photon, photon | background_photon, background_photon => true
  | _, _ => false
  end.

Record point : Type := mkPoint { pt_x : R; pt_y : R }.

Record Particle : Type := mkParticle {
  id : R;
  x : R;
  y : R;
  vx : R;
  vy : R;
  type : ptype;
  life : Z;
  history : list point
}.

Definition set_x (p : Particle) (v : R) : Particle :=
  mkParticle (id p) v (y p) (vx p) (vy p) (type p) (life p) (history p).
Definition set_y (p : Particle) (v : R) : Particle :=
  mkParticle (id p) (x p) v (vx p) (vy p) (type p) (life p) (history p).
Definition set_vx (p : Particle) (v : R) : Particle :=
  mkParticle (id p) (x p) (y p) v (vy p) (type p) (life p) (history p).
Definition set_vy (p : Particle) (v : R) : Particle :=
  mkParticle (id p) (x p) (y p) (vx p) v (type p) (life p) (history p).
Definition set_type (p : Particle) (t : ptype) : Particle :=
  mkParticle (id p) (x p) (y p) (vx p) (vy p) t (life p) (history p).
Definition set_life (p : Particle) (l : Z) : Particle :=
  mkParticle (id p) (x p) (y p) (vx p) (vy p) (type p) l (history p).
Definition set_history (p : Particle) (h : list point) : Particle :=
  mkParticle (id p) (x p) (y p) (vx p) (vy p) (type p) (life p) h.

(** ** Emitter *)

(** [spawnParticle] (simulator.js 44-56, App.tsx 93-109): the particle it
    pushes.  The draws are, in order, [spreadY], [id] and [vx]. *)
Definition spawnParticle : Rand Particle :=
  r <- Math_random ;;
  let spreadY := (r - 0.5) * 2 in
  i <- Math_random ;;
  r1 <- Math_random ;;
  ret {| id := i;
         x := SOURCE_X + 10;
         y := CENTER_Y;
         vx := 6 + r1 * 2;
         vy := spreadY;
         type := beta;
         life := 200;
         history := [] |}.

(** The four assignments of one arm of the [switch]. *)
Record launch : Type := mkLaunch { startX : R; startY : R; l_vx : R; l_vy : R }.

(** [spawnBackgroundParticle] (simulator.js 58-98, App.tsx 111-157): the
    particle it pushes.  In simulator.js the left edge is the [default]
    arm; in App.tsx it is [case 3] and the [default] arm launches from the
    origin with velocity (1, 1). *)
Definition spawnBackgroundParticle (fe : frontend) : Rand Particle :=
  r <- Math_random ;;
  let speed := 3 + r in
  r <- Math_random ;;
  let edge := Math_floor (r * 4) in
  let top :=
    r1 <- Math_random ;; r2 <- Math_random ;; r3 <- Math_random ;;
    ret (mkLaunch (r1 * CANVAS_WIDTH) (-10) ((r2 - 0.5) * speed) (r3 * speed)) in
  let right :=
    r1 <- Math_random ;; r2 <- Math_random ;; r3 <- Math_random ;;
    ret (mkLaunch (CANVAS_WIDTH + 10) (r1 * CANVAS_HEIGHT) (- r2 * speed) ((r3 - 0.5) * speed)) in
  let bottom :=
    r1 <- Math_random ;; r2 <- Math_random ;; r3 <- Math_random ;;
    ret (mkLaunch (r1 * CANVAS_WIDTH) (CANVAS_HEIGHT + 10) ((r2 - 0.5) * speed) (- r3 * speed)) in
  let left :=
    r1 <- Math_random ;; r2 <- Math_random ;; r3 <- Math_random ;;
    ret (mkLaunch (-10) (r1 * CANVAS_HEIGHT) (r2 * speed) ((r3 - 0.5) * speed)) in
  l <- match edge with
       | 0%Z => top
       | 1%Z => right
       | 2%Z => bottom
       | _ => match fe with
              | SimulatorJs => left
              | AppTsx => if (edge =? 3)%Z then left else ret (mkLaunch 0 0 1 1)
              end
       end ;;
  i <- Math_random ;;
  ret {| id := i;
         x := startX l;
         y := startY l;
         vx := l_vx l;
         vy := l_vy l;
         type := background_photon;
         life := 400;
         history := [] |}.

(** ** InteractionResolver: [updateParticles]
    (simulator.js 100-150, App.tsx 159-217) *)

(** [p.x += p.vx; p.y += p.vy;] and, in simulator.js only, [p.life -= 1]. *)
Definition move (fe : frontend) (p : Particle) : Particle :=
  let p := set_x p (x p + vx p) in
  let p := set_y p (y p + vy p) in
  match fe with
  | SimulatorJs => set_life p (life p - 1)
  | AppTsx => p
  end.

(** [p.history.push({x, y}); if (p.history.length > 10) p.history.shift();] *)
Definition recordTrail (p : Particle) : Particle :=
  let p := set_history p (history p ++ [mkPoint (x p) (y p)]) in
  if (10 <? List.length (history p))%nat then set_history p (tl (history p)) else p.

(** The test of the PMMA branch. *)
Definition hitsPMMA (p : Particle) : bool :=
  ptype_eqb (type p) beta
  && Rleb PMMA_X (x p)
  && Rleb (x p) (PMMA_X + PMMA_VISUAL_THICKNESS)
  && Rltb (CENTER_Y - PMMA_HEIGHT / 2) (y p)
  && Rltb (y p) (CENTER_Y + PMMA_HEIGHT / 2).

(** The body of the PMMA branch: beta to photon.  simulator.js also sets
    [p.life = 400]; App.tsx leaves [life] as it is. *)
Definition bremsstrahlung (fe : frontend) (p : Particle) : Rand Particle :=
  r <- Math_random ;;
  let angle := (r - 0.5) * (PI / 1.5) in
  let speed := 4 in
  let p := set_type p photon in
  let p := set_history p [] in
  let p := set_vx p (cos angle * speed) in
  let p := set_vy p (sin angle * speed) in
  ret match fe with
      | SimulatorJs => set_life p 400
      | AppTsx => p
      end.

(** The test of the detector branch. *)
Definition hitsDetector (detectorX : R) (p : Particle) : bool :=
  let detectorYMin := CENTER_Y - DETECTOR_HEIGHT / 2 in
  let detectorYMax := CENTER_Y + DETECTOR_HEIGHT / 2 in
  (ptype_eqb (type p) photon || ptype_eqb (type p) background_photon)
  && Rleb detectorX (x p)
  && Rleb (x p) (detectorX + DETECTOR_WIDTH)
  && Rleb detectorYMin (y p)
  && Rleb (y p) detectorYMax.

(** The test of the boundary cleanup. *)
Definition outOfBounds (p : Particle) : bool :=
  Rltb (x p) (-20) || Rltb (CANVAS_WIDTH + 20) (x p)
  || Rltb (y p) (-20) || Rltb (CANVAS_HEIGHT + 20) (y p).

(** The callback of [particles.forEach]: one particle, one tick.  [counts]
    is the counter ([counts] in simulator.js; in App.tsx
    [countsRef.current], which every write copies to the React state
    [counts] with [setCounts]). *)
Definition updateParticle (fe : frontend) (detectorX : R)
    (p : Particle) (counts : Z) : Rand (Particle * Z) :=
  let p := move fe p in
  let p := recordTrail p in
  p <- (if hitsPMMA p then bremsstrahlung fe p else ret p) ;;
  let '(p, counts) :=
    if hitsDetector detectorX p then (set_life p 0, (counts + 1)%Z) else (p, counts) in
  let p := if outOfBounds p then set_life p 0 else p in
  ret (p, counts).

Fixpoint forEachParticle (fe : frontend) (detectorX : R)
    (ps : list Particle) (counts : Z) : Rand (list Particle * Z) :=
  match ps with
  | [] => ret ([], counts)
  | p :: ps' =>
      '(p', counts) <- updateParticle fe detectorX p counts ;;
      '(ps'', counts) <- forEachParticle fe detectorX ps' counts ;;
      ret (p' :: ps'', counts)
  end.

(** Removal of the dead particles.  simulator.js walks the array from its
    last index down and splices out each particle with [life <= 0];
    App.tsx keeps [filter(p => p.life > 0)]. *)
Definition removeDead (fe : frontend) (ps : list Particle) : list Particle :=
  match fe with
  | SimulatorJs =>
      fold_right (fun p kept => if (life p <=? 0)%Z then kept else p :: kept) [] ps
  | AppTsx => filter (fun p => (0 <? life p)%Z) ps
  end.

Definition detectorXOf (distanceCm : R) : R :=
  PMMA_X + PMMA_VISUAL_THICKNESS + distanceCm * PX_PER_CM.

Definition updateParticles (fe : frontend) (distanceCm : R)
    (ps : list Particle) (counts : Z) : Rand (list Particle * Z) :=
  let detectorX := detectorXOf distanceCm in
  '(ps, counts) <- forEachParticle fe detectorX ps counts ;;
  ret (removeDead fe ps, counts).

(** ** FieldSampler: [drawHeatmap] (simulator.js 152-186, App.tsx 219-270) *)

Definition blockSize : R := 8.
Definition cols : Z := Math_ceil (CANVAS_WIDTH / blockSize).
Definition rows : Z := Math_ceil (CANVAS_HEIGHT / blockSize).

(** [fieldValue] of the block with indices [i], [j], as the loop body
    computes it from [x = i * blockSize] and [y = j * blockSize]. *)
Definition fieldValue (sourceOpen : bool) (i j : nat) : R :=
  let x := INR i * blockSize in
  let y := INR j * blockSize in
  let fieldValue := B_CONST in
  if sourceOpen then
    let pmmaCenterX := PMMA_X + PMMA_VISUAL_THICKNESS / 2 in
    let pmmaCenterY := CENTER_Y in
    let dx := x - pmmaCenterX in
    let dy := y - pmmaCenterY in
    let distPx := sqrt (dx * dx + dy * dy) in
    let distM := Rmax (distPx / PX_PER_CM / 100) 0.01 in
    let attenuation := exp (- MU_CONST * distM) in
    let geometricLoss := distM * distM in
    fieldValue + (K_CONST * attenuation) / geometricLoss
  else fieldValue.

(** The normalised parameter [t] and the [hue] of a field value. *)
Definition colorParam (fieldValue : R) : R :=
  let logVal := Math_log10 fieldValue in
  let minLog := Math_log10 B_CONST in
  let maxLog := Math_log10 50 in
  let t := (logVal - minLog) / (maxLog - minLog) in
  Rmax 0 (Rmin 1 t).

Definition hueOf (fieldValue : R) : R :=
  let t := colorParam fieldValue in
  240 - t * 240.

(** One [fillStyle]/[fillRect] pair: [hsla(hue, 100%, 50%, 0.4)] over the
    square of side [blockSize] whose top-left corner is ([fill_x], [fill_y]). *)
Record fill : Type := mkFill { fill_hue : R; fill_x : R; fill_y : R; fill_side : R }.

Definition drawBlock (sourceOpen : bool) (i j : nat) : fill :=
  mkFill (hueOf (fieldValue sourceOpen i j)) (INR i * blockSize) (INR j * blockSize) blockSize.

Definition drawHeatmap (sourceOpen : bool) : list fill :=
  flat_map (fun i => map (fun j => drawBlock sourceOpen i j) (seq 0 (Z.to_nat rows)))
           (seq 0 (Z.to_nat cols)).

(** The DoseModel formula, as a function of the source state and of the
    distance in metres. *)
Definition doseFormula (sourceOpen : bool) (dm : R) : R :=
  B_CONST + (if sourceOpen then K_CONST * exp (- MU_CONST * dm) / (dm * dm) else 0).

(** The field value the specification describes: the same formula, with
    the distance measured from the centre of the block, the point
    ([x + blockSize / 2], [y + blockSize / 2]), to the centre of the slab. *)
Definition spec_fieldValue (sourceOpen : bool) (i j : nat) : R :=
  let cx := INR i * blockSize + blockSize / 2 in
  let cy := INR j * blockSize + blockSize / 2 in
  let dx := cx - (PMMA_X + PMMA_VISUAL_THICKNESS / 2) in
  let dy := cy - CENTER_Y in
  doseFormula sourceOpen (Rmax (sqrt (dx * dx + dy * dy) / PX_PER_CM / 100) 0.01).

(** ** State, clock and controls *)

(** The mutable variables of a front-end.  [doseRateDisplay] is the React
    state [doseRate] in App.tsx. *)
Record State : Type := mkState {
  distanceCm : R;
  counts : Z;
  sourceOpen : bool;
  showHeatmap : bool;
  doseRateDisplay : string;
  particles : list Particle
}.

(** The state at load.  simulator.js runs [sliderHandler] once on the
    initial value of the slider; App.tsx starts at 80. *)
Definition initialState (fe : frontend) (slider : Z) : State :=
  {| distanceCm := match fe with SimulatorJs => IZR slider | AppTsx => 80 end;
     counts := 0;
     sourceOpen := true;
     showHeatmap := false;
     doseRateDisplay := "0.150";
     particles := [] |}.

Fixpoint spawnParticles (n : nat) (ps : list Particle) : Rand (list Particle) :=
  match n with
  | O => ret ps
  | S n' => p <- spawnParticle ;; spawnParticles n' (ps ++ [p])
  end.

(** [tick] (simulator.js 307-315, App.tsx 440-460), without the drawing. *)
Definition tick (fe : frontend) (st : State) : Rand State :=
  ps <- (if sourceOpen st then spawnParticles 3 (particles st) else ret (particles st)) ;;
  r <- Math_random ;;
  ps <- (if Rltb r 0.3
         then p <- spawnBackgroundParticle fe ;; ret (ps ++ [p])
         else ret ps) ;;
  '(ps, c) <- updateParticles fe (distanceCm st) ps (counts st) ;;
  ret {| distanceCm := distanceCm st;
         counts := c;
         sourceOpen := sourceOpen st;
         showHeatmap := showHeatmap st;
         doseRateDisplay := doseRateDisplay st;
         particles := ps |}.

(** The click listener of [resetButton] (simulator.js 352-358) and
    [handleReset] (App.tsx 471-475). *)
Definition reset (fe : frontend) (st : State) : State :=
  match fe with
  | SimulatorJs =>
      {| distanceCm := distanceCm st;
         counts := 0;
         sourceOpen := sourceOpen st;
         showHeatmap := showHeatmap st;
         doseRateDisplay := "0.150";
         particles := [] |}
  | AppTsx =>
      {| distanceCm := distanceCm st;
         counts := 0;
         sourceOpen := sourceOpen st;
         showHeatmap := showHeatmap st;
         doseRateDisplay := doseRateDisplay st;
         particles := [] |}
  end.

(** What the scheduler and the controls can do to the state. *)
Inductive event : Type :=
| Frame                      (* an animation frame: [tick] *)
| DoseSample                 (* [calculateDose]: the 500 ms interval, and in
                                App.tsx the effect run on a change of
                                [distanceCm] or [sourceOpen] *)
| SetDistance (cm : Z)       (* the slider: [parseInt] of its value *)
| ToggleSource
| SetHeatmap (b : bool)
| Reset.

Definition step (fe : frontend) (ev : event) (st : State) : Rand State :=
  match ev with
  | Frame => tick fe st
  | DoseSample =>
      s <- calculateDose (distanceCm st) (sourceOpen st) ;;
      ret (mkState (distanceCm st) (counts st) (sourceOpen st) (showHeatmap st) s (particles st))
  | SetDistance cm =>
      ret (mkState (IZR cm) (counts st) (sourceOpen st) (showHeatmap st)
                   (doseRateDisplay st) (particles st))
  | ToggleSource =>
      ret (mkState (distanceCm st) (counts st) (negb (sourceOpen st)) (showHeatmap st)
                   (doseRateDisplay st) (particles st))
  | SetHeatmap b =>
      ret (mkState (distanceCm st) (counts st) (sourceOpen st) b
                   (doseRateDisplay st) (particles st))
  | Reset => ret (reset fe st)
  end.

Fixpoint run (fe : frontend) (evs : list event) (st : State) : Rand State :=
  match evs with
  | [] => ret st
  | ev :: evs' => st' <- step fe ev st ;; run fe evs' st'
  end.

(** ** One particle over several ticks *)

(** What one particle meets on one tick: the detector distance of that
    tick and the state of the random stream when its callback runs. *)
Definition encounter : Type := (R * rng)%type.

(** The successive values of a particle and of the counter, tick after
    tick, until the particle is removed from the store. *)
Fixpoint lifetime (fe : frontend) (es : list encounter) (p : Particle) (c : Z)
    : list (Particle * Z) :=
  match es with
  | [] => []
  | (d, g) :: es' =>
      let '(p', c') := fst (updateParticle fe (detectorXOf d) p c g) in
      (p', c') :: match removeDead fe [p'] with
                  | [] => []
                  | _ => lifetime fe es' p' c'
                  end
  end.

(** The number of changes of kind along a sequence of kinds. *)
Fixpoint kindChanges (k : ptype) (ks : list ptype) : nat :=
  match ks with
  | [] => 0
  | k' :: ks' => (if ptype_eqb k k' then 0 else 1) + kindChanges k' ks'
  end.

(** ** The regions of the scene, in numbers *)

(** The slab: 120 to 130 across, the open interval 125 to 275 down. *)
Definition inSlab (px py : R) : Prop := 120 <= px <= 130 /\ 125 < py < 275.

(** The detector at distance [d] cm: 30 wide from [130 + 4 d], 170 to 230 down. *)
Definition inDetector (d px py : R) : Prop :=
  130 + 4 * d <= px <= 160 + 4 * d /\ 170 <= py <= 230.

(** The trail a tick leaves when the kind does not change. *)
Definition trailAfter (h : list point) (pt : point) : list point :=
  let h' := h ++ [pt] in
  if (10 <? List.length h')%nat then tl h' else h'.

(** Every trail of a store holds at most 10 positions. *)
Definition trailsBounded (ps : list Particle) : Prop :=
  Forall (fun p => (List.length (history p) <= 10)%nat) ps.

(** ** The edges of the scene *)

Inductive edge : Type := Top | Right | Bottom | Left.

(** The edge a draw selects: [Math.floor(r * 4)] is 0, 1, 2, 3 on the four
    quarters of the unit interval. *)
Definition edgeOfDraw (r : R) : edge :=
  if Rltb r (1 / 4) then Top
  else if Rltb r (1 / 2) then Right
  else if Rltb r (3 / 4) then Bottom
  else Left.

(** Ten units outside an edge, somewhere along it. *)
Definition startsOutside (e : edge) (p : Particle) : Prop :=
  match e with
  | Top => y p = -10 /\ 0 <= x p < 800
  | Right => x p = 810 /\ 0 <= y p < 400
  | Bottom => y p = 410 /\ 0 <= x p < 800
  | Left => x p = -10 /\ 0 <= y p < 400
  end.

(** The component of the velocity perpendicular to an edge, counted
    positive toward the scene. *)
Definition inwardSpeed (e : edge) (p : Particle) : R :=
  match e with
  | Top => vy p
  | Right => - vx p
  | Bottom => - vy p
  | Left => vx p
  end.

(** The position, in the stream, of the draw that scales that component. *)
Definition inwardDraw (e : edge) : nat :=
  match e with
  | Top | Bottom => 4
  | Right | Left => 3
  end.

(** ** Sample inputs *)

(** A beta one tick short of the slab, a photon one tick short of the
    detector placed at 80 cm, a photon in flight with a full trail, and
    the streams whose every draw is 0.5 or 0. *)
Definition sampleBeta : Particle := mkParticle 0 113 200 7 0 beta 200 [].
Definition samplePhoton : Particle := mkParticle 0 447 200 4 0 photon 300 [].
Definition trailedPhoton : Particle :=
  mkParticle 0 300 200 4 0 photon 300 (repeat (mkPoint 296 200) 10).
Definition halves : rng := fun _ => 0.5.
Definition zeros : rng := fun _ => 0.

(** ** Invariants of the stored particles *)

(** Inside the rectangle the boundary cleanup keeps. *)
Definition inBounds (p : Particle) : Prop :=
  -20 <= x p <= 820 /\ -20 <= y p <= 420.

(** The life a stored particle can have: a countdown from the budget of
    its kind in simulator.js, the budget itself in App.tsx, where a
    converted beta keeps the 200 it was spawned with. *)
Definition lifeInv (fe : frontend) (p : Particle) : Prop :=
  match fe, type p with
  | SimulatorJs, beta => (0 < life p <= 200)%Z
  | SimulatorJs, _ => (0 < life p <= 400)%Z
  | AppTsx, background_photon => life p = 400%Z
  | AppTsx, _ => life p = 200%Z
  end.

(** Where a stored particle can be and how it can move, kind by kind: a
    beta is between the source and the slab, inside the cone of the beam;
    a photon is past the near face of the slab and moves forward at speed
    4; a background photon is slower than 4 along each axis. *)
Definition kinematicInv (p : Particle) : Prop :=
  match type p with
  | beta =>
      90 <= x p < 120 /\ 6 <= vx p < 8 /\ -1 <= vy p < 1 /\
      200 - (x p - 90) / 6 <= y p <= 200 + (x p - 90) / 6
  | photon =>
      120 <= x p /\ 2 <= vx p /\ vx p * vx p + vy p * vy p = 16
  | background_photon =>
      -4 < vx p < 4 /\ -4 < vy p < 4
  end.

Definition particleInv (fe : frontend) (p : Particle) : Prop :=
  inBounds p /\ lifeInv fe p /\ kinematicInv p.

(** ** Counting frames, and two more sample inputs *)

(** The number of animation frames among some events. *)
Fixpoint frames (evs : list event) : nat :=
  match evs with
  | [] => 0
  | Frame :: evs' => S (frames evs')
  | _ :: evs' => frames evs'
  end.

(** The draws that launch a background photon from the middle of the top
    edge with no velocity: edge draw 0, position draw 0.5, [vx] draw 0.5,
    [vy] draw 0. *)
Definition stall : rng :=
  fun n => match n with 2%nat | 3%nat => 0.5 | _ => 0 end.

(** * Properties *)

(** ** Comparisons and the monad *)

Lemma Rleb_true (a b : R) : Rleb a b = true <-> a <= b.
Proof. unfold Rleb. destruct (Rle_dec a b); split; intros; try easy; lra. Qed.

Lemma Rleb_false (a b : R) : Rleb a b = false <-> b < a.
Proof. unfold Rleb. destruct (Rle_dec a b); split; intros; try easy; lra. Qed.

Lemma Rltb_true (a b : R) : Rltb a b = true <-> a < b.
Proof. unfold Rltb. destruct (Rlt_dec a b); split; intros; try easy; lra. Qed.

Lemma Rltb_false (a b : R) : Rltb a b = false <-> b <= a.
Proof. unfold Rltb. destruct (Rlt_dec a b); split; intros; try easy; lra. Qed.

Lemma Math_floor_eq (v : R) (z : Z) : IZR z <= v < IZR z + 1 -> Math_floor v = z.
Proof.
  intros H. unfold Math_floor. symmetry. apply Int_part_spec. lra.
Qed.

Lemma Math_floor_bounds (v : R) : IZR (Math_floor v) <= v < IZR (Math_floor v) + 1.
Proof.
  unfold Math_floor. destruct (base_Int_part v). lra.
Qed.

(** ** DoseModel *)

Lemma currentDose_formula (d : R) (open : bool) :
  currentDose d open = doseFormula open (Rmax d 1 / 100).
Proof.
  unfold currentDose, doseFormula. destruct open; [reflexivity | lra].
Qed.

(** Beyond the source the formula falls strictly with the distance. *)
Lemma doseFormula_decreasing (a b : R) :
  0 < a -> a < b -> doseFormula true b < doseFormula true a.
Proof.
  intros Ha Hab. unfold doseFormula.
  assert (Hexp : exp (- MU_CONST * b) < exp (- MU_CONST * a)).
  { apply exp_increasing. unfold MU_CONST. nra. }
  assert (Hpos : 0 < exp (- MU_CONST * b)) by apply exp_pos.
  assert (Hinv : / (b * b) < / (a * a)).
  { apply Rinv_lt_contravar; [apply Rmult_lt_0_compat |]; nra. }
  assert (Hib : 0 < / (b * b)) by (apply Rinv_0_lt_compat; nra).
  unfold Rdiv, K_CONST.
  assert (exp (- MU_CONST * b) * / (b * b) < exp (- MU_CONST * a) * / (a * a)) by nra.
  lra.
Qed.

(** Bounds of [e^(-0.016)], from [1 + x <= e^x]. *)
Lemma exp_m0016_bounds : 0.984 <= exp (- 0.016) <= 0.9843.
Proof.
  split.
  - pose proof (exp_ineq1_le (- 0.016)). lra.
  - replace (- 0.016) with (- (0.016)) by lra. rewrite exp_Ropp.
    pose proof (exp_ineq1_le 0.016) as H.
    assert (Hp : 0 < exp 0.016) by apply exp_pos.
    apply Rmult_le_reg_r with (exp 0.016); [exact Hp |].
    rewrite Rinv_l by lra. nra.
Qed.

(** C1: for every distance [d] in centimetres, [calculateDose] computes,
    before the noise, the background 0.15 when the source is shielded and
    [0.15 + 0.170 * e^(-0.02 * dm) / dm^2] when it is open, where
    [dm = max(d, 1) / 100] is never below 0.01 m; the displayed string is
    that value times the noise factor, to three decimals. *)
Theorem calculateDose_pure_dose (d : R) :
  let dm := Rmax d 1 / 100 in
  currentDose d false = 0.15 /\
  currentDose d true = 0.15 + 0.170 * exp (- 0.02 * dm) / (dm * dm) /\
  0.01 <= dm /\
  (1 <= d -> dm = d / 100) /\
  (d <= 1 -> dm = 0.01) /\
  forall (open : bool) (g : rng),
    fst (calculateDose d open g)
    = toFixed3 (currentDose d open * (1 + (g 0%nat * 0.04 - 0.02))).
Proof.
  intros dm. subst dm.
  refine (conj _ (conj _ (conj _ (conj _ (conj _ _))))).
  - unfold currentDose, B_CONST. reflexivity.
  - unfold currentDose, B_CONST, K_CONST, MU_CONST.
    replace (- (0.02)) with (- 0.02) by lra. reflexivity.
  - pose proof (Rmax_r d 1). lra.
  - intros H. rewrite Rmax_left by lra. reflexivity.
  - intros H. rewrite Rmax_right by lra. lra.
  - intros open g. reflexivity.
Qed.

Lemma currentDose_80 : currentDose 80 true = 0.15 + 0.170 * exp (- 0.016) / 0.64.
Proof.
  unfold currentDose, B_CONST, K_CONST, MU_CONST.
  rewrite Rmax_left by lra.
  replace (- (0.02) * (80 / 100)) with (- 0.016) by lra.
  replace (80 / 100 * (80 / 100)) with 0.64 by lra. reflexivity.
Qed.

(** A value at least 0.4105 and below 0.4115 is displayed as 0.411. *)
Lemma toFixed3_411 (v : R) : 0.4105 <= v < 0.4115 -> toFixed3 v = "0.411"%string.
Proof.
  intros Hv. unfold toFixed3.
  assert (Hneg : Rltb v 0 = false) by (apply Rltb_false; lra).
  rewrite Hneg.
  assert (Hn : Int_part (v * 1000 + 1 / 2) = 411%Z).
  { symmetry. apply Int_part_spec. lra. }
  rewrite Hn. reflexivity.
Qed.

Lemma toFixed3_currentDose_80 : toFixed3 (currentDose 80 true) = "0.411"%string.
Proof.
  pose proof exp_m0016_bounds as [Hlo Hhi].
  apply toFixed3_411. rewrite currentDose_80. lra.
Qed.

(** The background on its own is displayed as 0.150. *)
Lemma toFixed3_background : toFixed3 B_CONST = "0.150"%string.
Proof.
  unfold toFixed3, B_CONST.
  assert (Hneg : Rltb 0.15 0 = false) by (apply Rltb_false; lra).
  rewrite Hneg.
  assert (Hn : Int_part (0.15 * 1000 + 1 / 2) = 150%Z).
  { symmetry. apply Int_part_spec. lra. }
  rewrite Hn. reflexivity.
Qed.

(** C2: at 80 cm with the source open the pure dose is
    [0.15 + 0.170 * e^(-0.02 * 0.8) / 0.8^2], and to three decimals it
    reads 0.411. *)
Theorem calculateDose_at_80cm :
  currentDose 80 true = 0.15 + 0.170 * exp (- 0.02 * 0.8) / (0.8 * 0.8) /\
  toFixed3 (currentDose 80 true) = "0.411"%string.
Proof.
  split.
  - rewrite currentDose_80. replace (- 0.02 * 0.8) with (- 0.016) by lra.
    replace (0.8 * 0.8) with 0.64 by lra. reflexivity.
  - exact toFixed3_currentDose_80.
Qed.

(** C3: with the source open the pure dose falls strictly as the distance
    grows, for all distances of at least 0.01 m (1 cm). *)
Theorem calculateDose_strictly_decreasing (d1 d2 : R) :
  0.01 <= d1 / 100 -> d1 < d2 -> currentDose d2 true < currentDose d1 true.
Proof.
  intros H1 H12. rewrite !currentDose_formula.
  rewrite !Rmax_left by lra.
  apply doseFormula_decreasing; lra.
Qed.

Lemma calculateDose_strictly_decreasing_witness :
  currentDose 80 true < currentDose 20 true.
Proof.
  apply (calculateDose_strictly_decreasing 20 80); lra.
Defined.

(** ** One particle, one tick *)

Lemma ptype_eqb_eq (a b : ptype) : ptype_eqb a b = true <-> a = b.
Proof. destruct a, b; simpl; split; intros; try easy. Qed.

Lemma hitsPMMA_spec (p : Particle) :
  hitsPMMA p = true <-> type p = beta /\ inSlab (x p) (y p).
Proof.
  unfold hitsPMMA, inSlab, PMMA_X, PMMA_VISUAL_THICKNESS, PMMA_HEIGHT, CENTER_Y,
    CANVAS_HEIGHT, SOURCE_X, SOURCE_TO_PMMA_CM, PX_PER_CM.
  rewrite !andb_true_iff, ptype_eqb_eq, !Rleb_true, !Rltb_true.
  intuition lra.
Qed.

Lemma hitsPMMA_not_beta (p : Particle) : type p <> beta -> hitsPMMA p = false.
Proof.
  intros H. destruct (hitsPMMA p) eqn:E; [| reflexivity].
  apply hitsPMMA_spec in E. tauto.
Qed.

Lemma hitsDetector_spec (d : R) (p : Particle) :
  hitsDetector (detectorXOf d) p = true
  <-> (type p = photon \/ type p = background_photon) /\ inDetector d (x p) (y p).
Proof.
  unfold hitsDetector, detectorXOf, inDetector, PMMA_X, PMMA_VISUAL_THICKNESS,
    DETECTOR_WIDTH, DETECTOR_HEIGHT, CENTER_Y, CANVAS_HEIGHT, SOURCE_X,
    SOURCE_TO_PMMA_CM, PX_PER_CM.
  rewrite !andb_true_iff, orb_true_iff, !ptype_eqb_eq, !Rleb_true.
  intuition lra.
Qed.

(** The callback, step by step. *)
Lemma updateParticle_unfold (fe : frontend) (dX : R) (p : Particle) (c : Z) (g : rng) :
  updateParticle fe dX p c g =
    let p1 := recordTrail (move fe p) in
    let (p2, g') := if hitsPMMA p1 then bremsstrahlung fe p1 g else (p1, g) in
    let hit := hitsDetector dX p2 in
    let p3 := if hit then set_life p2 0 else p2 in
    ((if outOfBounds p3 then set_life p3 0 else p3, if hit then (c + 1)%Z else c), g').
Proof.
  unfold updateParticle, bind, ret. cbv zeta.
  destruct (hitsPMMA (recordTrail (move fe p))).
  - destruct (bremsstrahlung fe (recordTrail (move fe p)) g) as [p2 g'].
    destruct (hitsDetector dX p2); reflexivity.
  - destruct (hitsDetector dX (recordTrail (move fe p))); reflexivity.
Qed.

Lemma recordTrail_fields (p : Particle) :
  x (recordTrail p) = x p /\ y (recordTrail p) = y p /\
  vx (recordTrail p) = vx p /\ vy (recordTrail p) = vy p /\
  type (recordTrail p) = type p /\ life (recordTrail p) = life p /\
  history (recordTrail p) = trailAfter (history p) (mkPoint (x p) (y p)).
Proof.
  unfold recordTrail, trailAfter. cbv zeta. simpl.
  destruct (10 <? List.length (history p ++ [mkPoint (x p) (y p)]))%nat; simpl; tauto.
Qed.

Lemma move_fields (fe : frontend) (p : Particle) :
  x (move fe p) = x p + vx p /\ y (move fe p) = y p + vy p /\
  vx (move fe p) = vx p /\ vy (move fe p) = vy p /\
  type (move fe p) = type p /\ history (move fe p) = history p /\
  life (move fe p) = match fe with SimulatorJs => (life p - 1)%Z | AppTsx => life p end.
Proof. destruct fe; simpl; tauto. Qed.

(** The PMMA test of a tick reads the kind and the new position only. *)
Lemma hitsPMMA_moved (fe : frontend) (p : Particle) :
  hitsPMMA (recordTrail (move fe p)) = true
  <-> type p = beta /\ inSlab (x p + vx p) (y p + vy p).
Proof.
  rewrite hitsPMMA_spec.
  destruct (recordTrail_fields (move fe p)) as (Hx & Hy & _ & _ & Ht & _).
  destruct (move_fields fe p) as (Mx & My & _ & _ & Mt & _).
  rewrite Hx, Hy, Ht, Mx, My, Mt. tauto.
Qed.

(** The emission angle of a draw. *)
Lemma emission_angle_range (r : R) :
  0 <= r < 1 -> - (PI / 3) <= (r - 0.5) * (PI / 1.5) < PI / 3.
Proof.
  intros Hr. pose proof PI_RGT_0 as HPI.
  replace ((r - 0.5) * (PI / 1.5)) with ((2 * r - 1) * (PI / 3)) by lra.
  assert (0 < PI / 3) by lra. nra.
Qed.

Lemma cos_third_turn (a : R) : - (PI / 3) <= a <= PI / 3 -> 1 / 2 <= cos a.
Proof.
  intros Ha. pose proof PI_RGT_0 as HPI. rewrite <- cos_PI3.
  destruct (Rle_dec 0 a) as [Hpos | Hneg].
  - apply cos_decr_1; lra.
  - rewrite <- (cos_neg a). apply cos_decr_1; lra.
Qed.

Lemma cos_sin_speed (a s : R) : (cos a * s) * (cos a * s) + (sin a * s) * (sin a * s) = s * s.
Proof.
  pose proof (sin2_cos2 a) as H. unfold Rsqr in H. nra.
Qed.

(** A tick on which the PMMA branch is not taken. *)
Lemma updateParticle_no_transition (fe : frontend) (dX : R) (p : Particle) (c : Z) (g : rng) :
  hitsPMMA (recordTrail (move fe p)) = false ->
  let r := updateParticle fe dX p c g in
  snd r = g /\
  type (fst (fst r)) = type p /\
  vx (fst (fst r)) = vx p /\ vy (fst (fst r)) = vy p /\
  x (fst (fst r)) = x p + vx p /\ y (fst (fst r)) = y p + vy p /\
  history (fst (fst r)) = trailAfter (history p) (mkPoint (x p + vx p) (y p + vy p)).
Proof.
  intros H. cbv zeta. rewrite updateParticle_unfold. cbv zeta. rewrite H.
  destruct (recordTrail_fields (move fe p)) as (Hx & Hy & Hvx & Hvy & Ht & _ & Hh).
  destruct (move_fields fe p) as (Mx & My & Mvx & Mvy & Mt & Mh & _).
  rewrite Mx, My, Mh in Hh.
  destruct (hitsDetector dX (recordTrail (move fe p)));
    match goal with |- context [outOfBounds ?q] => destruct (outOfBounds q) end;
    simpl; rewrite ?Hx, ?Hy, ?Hvx, ?Hvy, ?Ht, ?Hh, ?Mx, ?My, ?Mvx, ?Mvy, ?Mt; tauto.
Qed.

(** A tick on which the PMMA branch is taken. *)
Lemma updateParticle_transition (fe : frontend) (dX : R) (p : Particle) (c : Z) (g : rng) :
  hitsPMMA (recordTrail (move fe p)) = true ->
  let r := updateParticle fe dX p c g in
  let angle := (g 0%nat - 0.5) * (PI / 1.5) in
  snd r = (fun n => g (S n)) /\
  type (fst (fst r)) = photon /\
  vx (fst (fst r)) = cos angle * 4 /\ vy (fst (fst r)) = sin angle * 4 /\
  x (fst (fst r)) = x p + vx p /\ y (fst (fst r)) = y p + vy p /\
  history (fst (fst r)) = [].
Proof.
  intros H. cbv zeta. rewrite updateParticle_unfold. cbv zeta. rewrite H.
  destruct (recordTrail_fields (move fe p)) as (Hx & Hy & _).
  destruct (move_fields fe p) as (Mx & My & _).
  unfold bremsstrahlung, bind, ret, Math_random. cbv zeta.
  match goal with |- context [hitsDetector dX ?q] => destruct (hitsDetector dX q) end;
    match goal with |- context [outOfBounds ?q] => destruct (outOfBounds q) end;
    destruct fe; simpl; rewrite ?Hx, ?Hy, ?Mx, ?My; simpl; tauto.
Qed.

Lemma hitsDetector_set_life (dX : R) (q : Particle) (l : Z) :
  hitsDetector dX (set_life q l) = hitsDetector dX q.
Proof. reflexivity. Qed.

Lemma outOfBounds_set_life (q : Particle) (l : Z) :
  outOfBounds (set_life q l) = outOfBounds q.
Proof. reflexivity. Qed.

(** The counter and the life after a tick, read off the particle the tick
    leaves: the detector test sees the kind and position it ends with. *)
Lemma updateParticle_detection (fe : frontend) (dX : R) (p : Particle) (c : Z) (g : rng) :
  let r := updateParticle fe dX p c g in
  (hitsDetector dX (fst (fst r)) = true -> snd (fst r) = (c + 1)%Z /\ life (fst (fst r)) = 0%Z) /\
  (hitsDetector dX (fst (fst r)) = false -> snd (fst r) = c).
Proof.
  cbv zeta. rewrite updateParticle_unfold. cbv zeta.
  destruct (if hitsPMMA (recordTrail (move fe p))
            then bremsstrahlung fe (recordTrail (move fe p)) g
            else (recordTrail (move fe p), g)) as [p2 g'].
  destruct (hitsDetector dX p2) eqn:Hd.
  - destruct (outOfBounds (set_life p2 0)); simpl;
      rewrite ?hitsDetector_set_life, Hd; split; intros; try easy; split; reflexivity.
  - destruct (outOfBounds p2); simpl;
      rewrite ?hitsDetector_set_life, Hd; split; intros; easy.
Qed.

(** Leaving the scene, too, forces the life to 0. *)
Lemma updateParticle_cleanup (fe : frontend) (dX : R) (p : Particle) (c : Z) (g : rng) :
  let p' := fst (fst (updateParticle fe dX p c g)) in
  outOfBounds p' = true -> life p' = 0%Z.
Proof.
  cbv zeta. rewrite updateParticle_unfold. cbv zeta.
  destruct (if hitsPMMA (recordTrail (move fe p))
            then bremsstrahlung fe (recordTrail (move fe p)) g
            else (recordTrail (move fe p), g)) as [p2 g'].
  destruct (hitsDetector dX p2);
    match goal with |- context [if outOfBounds ?q then _ else _] =>
      destruct (outOfBounds q) eqn:Ho end;
    simpl; rewrite ?outOfBounds_set_life; intros; try reflexivity; congruence.
Qed.

(** ** Removal of the dead *)

Lemma removeDead_filter (fe : frontend) (ps : list Particle) :
  removeDead fe ps = filter (fun p => (0 <? life p)%Z) ps.
Proof.
  destruct fe; [| reflexivity]. simpl.
  induction ps as [| p ps IH]; [reflexivity |]. simpl. rewrite IH.
  destruct (Z.leb_spec (life p) 0), (Z.ltb_spec 0 (life p)); try lia; reflexivity.
Qed.

Lemma removeDead_app (fe : frontend) (ps qs : list Particle) :
  removeDead fe (ps ++ qs) = removeDead fe ps ++ removeDead fe qs.
Proof. rewrite !removeDead_filter. apply filter_app. Qed.

Lemma removeDead_dead (fe : frontend) (p : Particle) :
  (life p <= 0)%Z -> removeDead fe [p] = [].
Proof.
  intros H. rewrite removeDead_filter. simpl.
  destruct (Z.ltb_spec 0 (life p)); [lia | reflexivity].
Qed.

Lemma removeDead_alive (fe : frontend) (ps : list Particle) :
  Forall (fun p => (0 < life p)%Z) (removeDead fe ps).
Proof.
  rewrite removeDead_filter. apply Forall_forall. intros p Hp.
  apply filter_In in Hp. destruct Hp as [_ Hp]. apply Z.ltb_lt in Hp. exact Hp.
Qed.

Lemma removeDead_incl (fe : frontend) (ps : list Particle) (p : Particle) :
  In p (removeDead fe ps) -> In p ps.
Proof. rewrite removeDead_filter. intros H. apply filter_In in H. tauto. Qed.

(** ** The whole store, one tick *)

Lemma forEachParticle_app (fe : frontend) (dX : R) (ps qs : list Particle) (c : Z) (g : rng) :
  forEachParticle fe dX (ps ++ qs) c g =
    let '((ps', c1), g1) := forEachParticle fe dX ps c g in
    let '((qs', c2), g2) := forEachParticle fe dX qs c1 g1 in
    ((ps' ++ qs', c2), g2).
Proof.
  revert c g. induction ps as [| p ps IH]; intros c g.
  - simpl. unfold ret. destruct (forEachParticle fe dX qs c g) as [[qs' c2] g2]. reflexivity.
  - simpl. unfold bind, ret.
    destruct (updateParticle fe dX p c g) as [[p' c0] g0].
    rewrite IH.
    destruct (forEachParticle fe dX ps c0 g0) as [[ps' c1] g1].
    destruct (forEachParticle fe dX qs c1 g1) as [[qs' c2] g2]. reflexivity.
Qed.

(** The callback adds to the counter whatever its value. *)
Lemma updateParticle_counts_shift (fe : frontend) (dX : R) (p : Particle) (c k : Z) (g : rng) :
  updateParticle fe dX p (c + k) g =
    let '((p', c'), g') := updateParticle fe dX p c g in ((p', (c' + k)%Z), g').
Proof.
  rewrite !updateParticle_unfold. cbv zeta.
  destruct (if hitsPMMA (recordTrail (move fe p))
            then bremsstrahlung fe (recordTrail (move fe p)) g
            else (recordTrail (move fe p), g)) as [p2 g'].
  destruct (hitsDetector dX p2); [| reflexivity].
  f_equal. f_equal. lia.
Qed.

Lemma forEachParticle_counts_shift (fe : frontend) (dX : R) (ps : list Particle)
    (c k : Z) (g : rng) :
  forEachParticle fe dX ps (c + k) g =
    let '((ps', c'), g') := forEachParticle fe dX ps c g in ((ps', (c' + k)%Z), g').
Proof.
  revert c g. induction ps as [| p ps IH]; intros c g; [reflexivity |].
  simpl. unfold bind, ret. rewrite updateParticle_counts_shift.
  destruct (updateParticle fe dX p c g) as [[p' c0] g0].
  rewrite IH.
  destruct (forEachParticle fe dX ps c0 g0) as [[ps' c1] g1]. reflexivity.
Qed.

(** ** Kinds along a lifetime *)

Lemma updateParticle_type (fe : frontend) (dX : R) (p : Particle) (c : Z) (g : rng) :
  let p' := fst (fst (updateParticle fe dX p c g)) in
  (type p' = type p /\ hitsPMMA (recordTrail (move fe p)) = false)
  \/ (type p = beta /\ type p' = photon /\ hitsPMMA (recordTrail (move fe p)) = true).
Proof.
  cbv zeta. destruct (hitsPMMA (recordTrail (move fe p))) eqn:E.
  - right. pose proof (updateParticle_transition fe dX p c g E) as H. cbv zeta in H.
    apply hitsPMMA_moved in E. tauto.
  - left. pose proof (updateParticle_no_transition fe dX p c g E) as H. cbv zeta in H.
    tauto.
Qed.

Lemma ptype_eqb_refl (k : ptype) : ptype_eqb k k = true.
Proof. destruct k; reflexivity. Qed.

Lemma lifetime_kinds_not_beta (fe : frontend) (es : list encounter) :
  forall (p : Particle) (c : Z),
    type p <> beta ->
    kindChanges (type p) (map (fun pc => type (fst pc)) (lifetime fe es p c)) = 0%nat.
Proof.
  induction es as [| [d g] es IH]; intros p c Hp; [reflexivity |].
  simpl. pose proof (updateParticle_type fe (detectorXOf d) p c g) as Ht. cbv zeta in Ht.
  destruct (updateParticle fe (detectorXOf d) p c g) as [[p' c'] g']. simpl in *.
  destruct Ht as [[Ht _] | [Ht _]]; [| congruence].
  rewrite Ht, ptype_eqb_refl. simpl.
  destruct (removeDead fe [p']); [reflexivity |].
  rewrite <- Ht. apply IH. congruence.
Qed.

Lemma lifetime_kinds (fe : frontend) (es : list encounter) :
  forall (p : Particle) (c : Z),
    (kindChanges (type p) (map (fun pc => type (fst pc)) (lifetime fe es p c)) <= 1)%nat.
Proof.
  induction es as [| [d g] es IH]; intros p c; [simpl; lia |].
  simpl. pose proof (updateParticle_type fe (detectorXOf d) p c g) as Ht. cbv zeta in Ht.
  destruct (updateParticle fe (detectorXOf d) p c g) as [[p' c'] g']. simpl in *.
  destruct Ht as [[Ht _] | (Hb & Ht & _)].
  - rewrite Ht, ptype_eqb_refl. simpl.
    destruct (removeDead fe [p']); [simpl; lia |].
    rewrite <- Ht. apply IH.
  - rewrite Hb, Ht. simpl.
    destruct (removeDead fe [p']); [simpl; lia |].
    rewrite <- Ht, lifetime_kinds_not_beta by congruence. lia.
Qed.

(** ** The counter along a lifetime *)

Lemma lifetime_counts (fe : frontend) (es : list encounter) :
  forall (p : Particle) (c : Z),
    Forall (fun pc => (c <= snd pc <= c + 1)%Z) (lifetime fe es p c).
Proof.
  induction es as [| [d g] es IH]; intros p c; [constructor |].
  simpl. pose proof (updateParticle_detection fe (detectorXOf d) p c g) as [Hhit Hmiss].
  destruct (updateParticle fe (detectorXOf d) p c g) as [[p' c'] g']. simpl in *.
  destruct (hitsDetector (detectorXOf d) p') eqn:E.
  - destruct (Hhit eq_refl) as [Hc Hl]. subst c'.
    rewrite removeDead_dead by lia. constructor; [simpl; lia | constructor].
  - rewrite (Hmiss eq_refl).
    constructor; [simpl; lia |].
    destruct (removeDead fe [p']); [constructor | apply IH].
Qed.

(** ** Trails *)

Lemma trailAfter_length (h : list point) (pt : point) :
  (List.length h <= 10)%nat -> (List.length (trailAfter h pt) <= 10)%nat.
Proof.
  intros H. unfold trailAfter. cbv zeta.
  destruct (Nat.ltb_spec 10 (List.length (h ++ [pt]))) as [Hlt | Hle]; [| exact Hle].
  rewrite length_app in Hlt. simpl in Hlt.
  destruct h as [| q h]; simpl in *; [lia |].
  rewrite length_app. simpl. lia.
Qed.

Lemma updateParticle_history (fe : frontend) (dX : R) (p : Particle) (c : Z) (g : rng) :
  history (fst (fst (updateParticle fe dX p c g)))
  = if hitsPMMA (recordTrail (move fe p)) then []
    else trailAfter (history p) (mkPoint (x p + vx p) (y p + vy p)).
Proof.
  destruct (hitsPMMA (recordTrail (move fe p))) eqn:E.
  - pose proof (updateParticle_transition fe dX p c g E) as H. cbv zeta in H. tauto.
  - pose proof (updateParticle_no_transition fe dX p c g E) as H. cbv zeta in H. tauto.
Qed.

Lemma updateParticle_trail_bound (fe : frontend) (dX : R) (p : Particle) (c : Z) (g : rng) :
  (List.length (history p) <= 10)%nat ->
  (List.length (history (fst (fst (updateParticle fe dX p c g)))) <= 10)%nat.
Proof.
  intros H. rewrite updateParticle_history.
  destruct (hitsPMMA (recordTrail (move fe p))); [simpl; lia |].
  apply trailAfter_length, H.
Qed.

Lemma forEachParticle_trails (fe : frontend) (dX : R) (ps : list Particle) :
  forall (c : Z) (g : rng),
    trailsBounded ps -> trailsBounded (fst (fst (forEachParticle fe dX ps c g))).
Proof.
  induction ps as [| p ps IH]; intros c g H; [constructor |].
  inversion H as [| ? ? Hp Hps]; subst.
  simpl. unfold bind, ret.
  pose proof (updateParticle_trail_bound fe dX p c g Hp) as Hp'.
  destruct (updateParticle fe dX p c g) as [[p' c0] g0].
  pose proof (IH c0 g0 Hps) as Hps'.
  destruct (forEachParticle fe dX ps c0 g0) as [[ps' c1] g1].
  constructor; assumption.
Qed.

Lemma removeDead_trails (fe : frontend) (ps : list Particle) :
  trailsBounded ps -> trailsBounded (removeDead fe ps).
Proof.
  unfold trailsBounded. rewrite !Forall_forall. intros H p Hp.
  apply H, (removeDead_incl fe), Hp.
Qed.

Lemma updateParticles_trails (fe : frontend) (d : R) (ps : list Particle) (c : Z) (g : rng) :
  trailsBounded ps -> trailsBounded (fst (fst (updateParticles fe d ps c g))).
Proof.
  intros H. unfold updateParticles, bind, ret. cbv zeta.
  pose proof (forEachParticle_trails fe (detectorXOf d) ps c g H) as H'.
  destruct (forEachParticle fe (detectorXOf d) ps c g) as [[ps' c'] g'].
  apply removeDead_trails, H'.
Qed.

Lemma spawnParticles_trails (n : nat) :
  forall (ps : list Particle) (g : rng),
    trailsBounded ps -> trailsBounded (fst (spawnParticles n ps g)).
Proof.
  induction n as [| n IH]; intros ps g H; [exact H |].
  simpl. unfold bind, spawnParticle, Math_random, ret. apply IH.
  apply Forall_app. split; [exact H |]. constructor; [simpl; lia | constructor].
Qed.

Lemma spawnBackgroundParticle_fresh (fe : frontend) (g : rng) :
  let p := fst (spawnBackgroundParticle fe g) in
  type p = background_photon /\ life p = 400%Z /\ history p = [].
Proof.
  cbv zeta. unfold spawnBackgroundParticle, bind, ret, Math_random. cbv zeta.
  match goal with |- context [let (_, _) := ?m in _] => destruct m as [l g'] end.
  simpl. tauto.
Qed.

Lemma tick_trails (fe : frontend) (st : State) (g : rng) :
  trailsBounded (particles st) -> trailsBounded (particles (fst (tick fe st g))).
Proof.
  intros H. unfold tick. unfold bind at 1.
  assert (H1 : trailsBounded
    (fst ((if sourceOpen st then spawnParticles 3 (particles st) else ret (particles st)) g))).
  { destruct (sourceOpen st); [apply spawnParticles_trails, H | exact H]. }
  destruct ((if sourceOpen st then spawnParticles 3 (particles st) else ret (particles st)) g)
    as [ps1 g1]. simpl in H1.
  unfold bind at 1. unfold Math_random at 1. unfold bind at 1.
  set (r := g1 0%nat). set (g2 := fun n => g1 (S n)).
  assert (H2 : trailsBounded
    (fst ((if Rltb r 0.3
           then bind (spawnBackgroundParticle fe) (fun p => ret (ps1 ++ [p]))
           else ret ps1) g2))).
  { destruct (Rltb r 0.3); [| exact H1].
    unfold bind, ret.
    pose proof (spawnBackgroundParticle_fresh fe g2) as (_ & _ & Hh).
    destruct (spawnBackgroundParticle fe g2) as [q g3]. simpl in *.
    apply Forall_app. split; [exact H1 |].
    constructor; [rewrite Hh; simpl; lia | constructor]. }
  destruct ((if Rltb r 0.3
             then bind (spawnBackgroundParticle fe) (fun p => ret (ps1 ++ [p]))
             else ret ps1) g2) as [ps2 g3]. simpl in H2.
  unfold bind, ret.
  pose proof (updateParticles_trails fe (distanceCm st) ps2 (counts st) g3 H2) as H3.
  destruct (updateParticles fe (distanceCm st) ps2 (counts st) g3) as [[ps3 c3] g4].
  exact H3.
Qed.

Lemma step_trails (fe : frontend) (ev : event) (st : State) (g : rng) :
  trailsBounded (particles st) -> trailsBounded (particles (fst (step fe ev st g))).
Proof.
  intros H. destruct ev as [| | cm | | b |]; simpl.
  - apply tick_trails, H.
  - exact H.
  - exact H.
  - exact H.
  - exact H.
  - destruct fe; constructor.
Qed.

Lemma run_trails (fe : frontend) (evs : list event) :
  forall (st : State) (g : rng),
    trailsBounded (particles st) -> trailsBounded (particles (fst (run fe evs st g))).
Proof.
  induction evs as [| ev evs IH]; intros st g H; [exact H |].
  simpl. unfold bind.
  pose proof (step_trails fe ev st g H) as H'.
  destruct (step fe ev st g) as [st' g']. apply IH, H'.
Qed.

(** ** Detection *)

(** A photon or background photon that moves into the detector. *)
Lemma updateParticle_detected (fe : frontend) (d : R) (p : Particle) (c : Z) (g : rng) :
  type p = photon \/ type p = background_photon ->
  inDetector d (x p + vx p) (y p + vy p) ->
  exists p', updateParticle fe (detectorXOf d) p c g = ((p', (c + 1)%Z), g)
             /\ life p' = 0%Z /\ type p' = type p.
Proof.
  intros Hk Hin.
  assert (Hnb : hitsPMMA (recordTrail (move fe p)) = false).
  { destruct (hitsPMMA (recordTrail (move fe p))) eqn:E; [| reflexivity].
    apply hitsPMMA_moved in E. destruct E as [E _], Hk; congruence. }
  pose proof (updateParticle_no_transition fe (detectorXOf d) p c g Hnb) as H.
  pose proof (updateParticle_detection fe (detectorXOf d) p c g) as [Hhit _].
  cbv zeta in H, Hhit.
  destruct (updateParticle fe (detectorXOf d) p c g) as [[p' c'] g']. simpl in *.
  destruct H as (Hg & Ht & _ & _ & Hx & Hy & _).
  assert (Hd : hitsDetector (detectorXOf d) p' = true).
  { apply hitsDetector_spec. rewrite Ht, Hx, Hy. tauto. }
  destruct (Hhit Hd) as [Hc Hl]. exists p'. subst. tauto.
Qed.

(** A beta that becomes a photon and is inside the detector on the same tick. *)
Lemma updateParticle_converted_detected (fe : frontend) (d : R) (p : Particle) (c : Z) (g : rng) :
  type p = beta ->
  inSlab (x p + vx p) (y p + vy p) ->
  inDetector d (x p + vx p) (y p + vy p) ->
  let r := updateParticle fe (detectorXOf d) p c g in
  snd (fst r) = (c + 1)%Z /\ life (fst (fst r)) = 0%Z.
Proof.
  intros Hb Hs Hin. cbv zeta.
  assert (E : hitsPMMA (recordTrail (move fe p)) = true) by (apply hitsPMMA_moved; tauto).
  pose proof (updateParticle_transition fe (detectorXOf d) p c g E) as H.
  pose proof (updateParticle_detection fe (detectorXOf d) p c g) as [Hhit _].
  cbv zeta in H, Hhit.
  destruct H as (_ & Ht & _ & _ & Hx & Hy & _).
  apply Hhit, hitsDetector_spec. rewrite Ht, Hx, Hy. tauto.
Qed.

(** The store after a tick is the store the tick would leave without the
    detected particle, and the counter is one higher. *)
Lemma updateParticles_detected (fe : frontend) (d : R) (p : Particle)
    (ps qs : list Particle) (c : Z) (g : rng) :
  type p = photon \/ type p = background_photon ->
  inDetector d (x p + vx p) (y p + vy p) ->
  updateParticles fe d (ps ++ p :: qs) c g =
    let '((rest, c'), g') := updateParticles fe d (ps ++ qs) c g in
    ((rest, (c' + 1)%Z), g').
Proof.
  intros Hk Hin. unfold updateParticles, bind, ret. cbv zeta.
  rewrite !forEachParticle_app.
  destruct (forEachParticle fe (detectorXOf d) ps c g) as [[ps' c1] g1].
  simpl forEachParticle. unfold bind, ret.
  destruct (updateParticle_detected fe d p c1 g1 Hk Hin) as (p' & Hu & Hl & _).
  rewrite Hu, forEachParticle_counts_shift.
  destruct (forEachParticle fe (detectorXOf d) qs c1 g1) as [[qs' c2] g2].
  rewrite !removeDead_app.
  change (p' :: qs') with ([p'] ++ qs').
  rewrite removeDead_app, removeDead_dead by lia. reflexivity.
Qed.

(** ** The claims on the particle update *)

(** C4: a beta whose new position is inside the slab becomes a photon, its
    trail cleared, its velocity of magnitude 4 at an angle within 60
    degrees of the forward axis; a photon or background photon is never
    transitioned, wherever it is: kind and velocity stay, no draw is
    made, the trail is kept; and over all the ticks a particle lives its
    kind changes at most once, and never if it does not start as a beta. *)
Theorem beta_to_photon_at_most_once (fe : frontend) :
  (forall (dX : R) (p : Particle) (c : Z) (g : rng),
      0 <= g 0%nat < 1 -> type p = beta -> inSlab (x p + vx p) (y p + vy p) ->
      exists angle : R,
        - (PI / 3) <= angle < PI / 3 /\
        type (fst (fst (updateParticle fe dX p c g))) = photon /\
        history (fst (fst (updateParticle fe dX p c g))) = [] /\
        vx (fst (fst (updateParticle fe dX p c g))) = 4 * cos angle /\
        vy (fst (fst (updateParticle fe dX p c g))) = 4 * sin angle /\
        vx (fst (fst (updateParticle fe dX p c g))) * vx (fst (fst (updateParticle fe dX p c g)))
        + vy (fst (fst (updateParticle fe dX p c g))) * vy (fst (fst (updateParticle fe dX p c g)))
        = 4 * 4) /\
  (forall (dX : R) (p : Particle) (c : Z) (g : rng),
      type p = photon \/ type p = background_photon ->
      type (fst (fst (updateParticle fe dX p c g))) = type p /\
      vx (fst (fst (updateParticle fe dX p c g))) = vx p /\
      vy (fst (fst (updateParticle fe dX p c g))) = vy p /\
      snd (updateParticle fe dX p c g) = g /\
      history (fst (fst (updateParticle fe dX p c g)))
      = trailAfter (history p) (mkPoint (x p + vx p) (y p + vy p))) /\
  (forall (es : list encounter) (p : Particle) (c : Z),
      (kindChanges (type p) (map (fun pc => type (fst pc)) (lifetime fe es p c)) <= 1)%nat /\
      (type p = photon \/ type p = background_photon ->
       kindChanges (type p) (map (fun pc => type (fst pc)) (lifetime fe es p c)) = 0%nat)).
Proof.
  refine (conj _ (conj _ _)).
  - intros dX p c g Hg Hb Hs.
    assert (E : hitsPMMA (recordTrail (move fe p)) = true) by (apply hitsPMMA_moved; tauto).
    pose proof (updateParticle_transition fe dX p c g E) as H. cbv zeta in H.
    destruct H as (_ & Ht & Hvx & Hvy & _ & _ & Hh).
    exists ((g 0%nat - 0.5) * (PI / 1.5)).
    rewrite Ht, Hvx, Hvy, Hh.
    refine (conj (emission_angle_range _ Hg) _).
    repeat (split; [first [reflexivity | apply Rmult_comm] |]).
    apply cos_sin_speed.
  - intros dX p c g Hk.
    assert (E : hitsPMMA (recordTrail (move fe p)) = false).
    { destruct (hitsPMMA (recordTrail (move fe p))) eqn:E; [| reflexivity].
      apply hitsPMMA_moved in E. destruct E as [E _], Hk; congruence. }
    pose proof (updateParticle_no_transition fe dX p c g E) as H. cbv zeta in H. tauto.
  - intros es p c. split; [apply lifetime_kinds |].
    intros Hk. apply lifetime_kinds_not_beta. destruct Hk; congruence.
Qed.

Lemma beta_to_photon_at_most_once_witness :
  exists angle : R,
    - (PI / 3) <= angle < PI / 3 /\
    type (fst (fst (updateParticle SimulatorJs 450 sampleBeta 0 halves))) = photon /\
    history (fst (fst (updateParticle SimulatorJs 450 sampleBeta 0 halves))) = [] /\
    vx (fst (fst (updateParticle SimulatorJs 450 sampleBeta 0 halves))) = 4 * cos angle /\
    vy (fst (fst (updateParticle SimulatorJs 450 sampleBeta 0 halves))) = 4 * sin angle /\
    vx (fst (fst (updateParticle SimulatorJs 450 sampleBeta 0 halves)))
    * vx (fst (fst (updateParticle SimulatorJs 450 sampleBeta 0 halves)))
    + vy (fst (fst (updateParticle SimulatorJs 450 sampleBeta 0 halves)))
      * vy (fst (fst (updateParticle SimulatorJs 450 sampleBeta 0 halves)))
    = 4 * 4.
Proof.
  apply (proj1 (beta_to_photon_at_most_once SimulatorJs) 450 sampleBeta 0%Z halves).
  - unfold halves. lra.
  - reflexivity.
  - unfold inSlab, sampleBeta. simpl. lra.
Defined.

(** C10: when a beta turns into a photon at the slab, the new velocity has
    magnitude exactly 4 and a horizontal component of at least 2, so
    strictly positive, whatever the draw. *)
Theorem converted_photon_travels_forward (fe : frontend) (dX : R) (p : Particle)
    (c : Z) (g : rng) :
  0 <= g 0%nat < 1 ->
  type p = beta ->
  inSlab (x p + vx p) (y p + vy p) ->
  type (fst (fst (updateParticle fe dX p c g))) = photon /\
  vx (fst (fst (updateParticle fe dX p c g))) * vx (fst (fst (updateParticle fe dX p c g)))
  + vy (fst (fst (updateParticle fe dX p c g))) * vy (fst (fst (updateParticle fe dX p c g)))
  = 16 /\
  2 <= vx (fst (fst (updateParticle fe dX p c g))) /\
  0 < vx (fst (fst (updateParticle fe dX p c g))).
Proof.
  intros Hg Hb Hs.
  assert (E : hitsPMMA (recordTrail (move fe p)) = true) by (apply hitsPMMA_moved; tauto).
  pose proof (updateParticle_transition fe dX p c g E) as H. cbv zeta in H.
  destruct H as (_ & Ht & Hvx & Hvy & _).
  rewrite Ht, Hvx, Hvy.
  pose proof (emission_angle_range _ Hg) as Ha.
  assert (Hc : 1 / 2 <= cos ((g 0%nat - 0.5) * (PI / 1.5))) by (apply cos_third_turn; lra).
  pose proof (cos_sin_speed ((g 0%nat - 0.5) * (PI / 1.5)) 4) as Hm.
  repeat split; try lra.
Qed.

Lemma converted_photon_travels_forward_witness :
  type (fst (fst (updateParticle AppTsx 450 sampleBeta 0 zeros))) = photon /\
  vx (fst (fst (updateParticle AppTsx 450 sampleBeta 0 zeros)))
  * vx (fst (fst (updateParticle AppTsx 450 sampleBeta 0 zeros)))
  + vy (fst (fst (updateParticle AppTsx 450 sampleBeta 0 zeros)))
    * vy (fst (fst (updateParticle AppTsx 450 sampleBeta 0 zeros)))
  = 16 /\
  2 <= vx (fst (fst (updateParticle AppTsx 450 sampleBeta 0 zeros))) /\
  0 < vx (fst (fst (updateParticle AppTsx 450 sampleBeta 0 zeros))).
Proof.
  apply (converted_photon_travels_forward AppTsx 450 sampleBeta 0%Z zeros).
  - unfold zeros. lra.
  - reflexivity.
  - unfold inSlab, sampleBeta. simpl. lra.
Defined.

(** C5: a photon or background photon whose new position is inside the
    detector rectangle (placed from the current distance) raises the
    counter by exactly 1, has its life forced to 0 and is removed in the
    same tick: the store is left as if the particle had not been there.
    A beta converted on the tick is counted likewise.  Over all the ticks
    a particle lives it raises the counter by at most 1. *)
Theorem detector_counts_once (fe : frontend) :
  (forall (d : R) (p : Particle) (c : Z) (g : rng),
      type p = photon \/ type p = background_photon ->
      inDetector d (x p + vx p) (y p + vy p) ->
      snd (fst (updateParticle fe (detectorXOf d) p c g)) = (c + 1)%Z /\
      life (fst (fst (updateParticle fe (detectorXOf d) p c g))) = 0%Z /\
      removeDead fe [fst (fst (updateParticle fe (detectorXOf d) p c g))] = []) /\
  (forall (d : R) (p : Particle) (ps qs : list Particle) (c : Z) (g : rng),
      type p = photon \/ type p = background_photon ->
      inDetector d (x p + vx p) (y p + vy p) ->
      updateParticles fe d (ps ++ p :: qs) c g =
        let '((rest, c'), g') := updateParticles fe d (ps ++ qs) c g in
        ((rest, (c' + 1)%Z), g')) /\
  (forall (d : R) (p : Particle) (c : Z) (g : rng),
      type p = beta ->
      inSlab (x p + vx p) (y p + vy p) ->
      inDetector d (x p + vx p) (y p + vy p) ->
      snd (fst (updateParticle fe (detectorXOf d) p c g)) = (c + 1)%Z /\
      life (fst (fst (updateParticle fe (detectorXOf d) p c g))) = 0%Z) /\
  (forall (es : list encounter) (p : Particle) (c : Z),
      Forall (fun pc => (c <= snd pc <= c + 1)%Z) (lifetime fe es p c)) /\
  (forall (d : R) (ps : list Particle) (c : Z) (g : rng),
      Forall (fun p => (0 < life p)%Z) (fst (fst (updateParticles fe d ps c g)))).
Proof.
  refine (conj _ (conj _ (conj _ (conj _ _)))).
  - intros d p c g Hk Hin.
    destruct (updateParticle_detected fe d p c g Hk Hin) as (p' & Hu & Hl & _).
    rewrite Hu. simpl. repeat split; try assumption.
    apply removeDead_dead. lia.
  - intros d p ps qs c g. apply updateParticles_detected.
  - intros d p c g. apply updateParticle_converted_detected.
  - intros es p c. apply lifetime_counts.
  - intros d ps c g. unfold updateParticles, bind, ret. cbv zeta.
    destruct (forEachParticle fe (detectorXOf d) ps c g) as [[ps' c'] g'].
    apply removeDead_alive.
Qed.

Lemma detector_counts_once_witness :
  snd (fst (updateParticle SimulatorJs (detectorXOf 80) samplePhoton 7 halves)) = 8%Z /\
  life (fst (fst (updateParticle SimulatorJs (detectorXOf 80) samplePhoton 7 halves))) = 0%Z /\
  removeDead SimulatorJs
    [fst (fst (updateParticle SimulatorJs (detectorXOf 80) samplePhoton 7 halves))] = [].
Proof.
  apply (proj1 (detector_counts_once SimulatorJs) 80 samplePhoton 7%Z halves).
  - left. reflexivity.
  - unfold inDetector, samplePhoton. simpl. lra.
Defined.

(** C6: in every state the simulation reaches, every trail holds at most
    10 positions.  A tick that keeps the kind appends the new position
    and, once that makes 11, drops the oldest; a tick that changes the
    kind leaves the trail empty. *)
Theorem trail_at_most_10 (fe : frontend) :
  (forall (slider : Z) (evs : list event) (g : rng),
      trailsBounded (particles (fst (run fe evs (initialState fe slider) g)))) /\
  (forall (dX : R) (p : Particle) (c : Z) (g : rng),
      (List.length (history p) <= 10)%nat ->
      (List.length (history (fst (fst (updateParticle fe dX p c g)))) <= 10)%nat) /\
  (forall (dX : R) (p : Particle) (c : Z) (g : rng),
      type (fst (fst (updateParticle fe dX p c g))) = type p ->
      history (fst (fst (updateParticle fe dX p c g)))
      = trailAfter (history p) (mkPoint (x p + vx p) (y p + vy p))) /\
  (forall (dX : R) (p : Particle) (c : Z) (g : rng),
      type (fst (fst (updateParticle fe dX p c g))) <> type p ->
      history (fst (fst (updateParticle fe dX p c g))) = []) /\
  (forall (h : list point) (pt : point),
      (List.length h < 10)%nat -> trailAfter h pt = h ++ [pt]) /\
  (forall (oldest : point) (h : list point) (pt : point),
      (List.length (oldest :: h) = 10)%nat -> trailAfter (oldest :: h) pt = h ++ [pt]).
Proof.
  refine (conj _ (conj _ (conj _ (conj _ (conj _ _))))).
  - intros slider evs g. apply run_trails. constructor.
  - intros dX p c g. apply updateParticle_trail_bound.
  - intros dX p c g Ht. rewrite updateParticle_history.
    destruct (updateParticle_type fe dX p c g) as [[_ E] | (Hb & Hp & _)].
    + rewrite E. reflexivity.
    + congruence.
  - intros dX p c g Ht. rewrite updateParticle_history.
    destruct (updateParticle_type fe dX p c g) as [[Hs _] | (_ & _ & E)].
    + congruence.
    + rewrite E. reflexivity.
  - intros h pt Hl. unfold trailAfter. cbv zeta.
    destruct (Nat.ltb_spec 10 (List.length (h ++ [pt]))) as [Hlt | Hle]; [| reflexivity].
    rewrite length_app in Hlt. simpl in Hlt. lia.
  - intros oldest h pt Hl. unfold trailAfter. cbv zeta.
    destruct (Nat.ltb_spec 10 (List.length ((oldest :: h) ++ [pt]))) as [Hlt | Hle].
    + reflexivity.
    + rewrite length_app in Hle. simpl in *. lia.
Qed.

Lemma trail_at_most_10_witness :
  (List.length (history (fst (fst (updateParticle AppTsx 450 trailedPhoton 0 halves)))) <= 10)%nat.
Proof.
  apply (proj1 (proj2 (trail_at_most_10 AppTsx)) 450 trailedPhoton 0%Z halves).
  simpl. lia.
Defined.

(** ** Emitter *)

Lemma edge_of_draw (r : R) :
  0 <= r < 1 ->
  Math_floor (r * 4) = match edgeOfDraw r with
                       | Top => 0 | Right => 1 | Bottom => 2 | Left => 3
                       end%Z.
Proof.
  intros Hr. unfold edgeOfDraw.
  destruct (Rltb r (1 / 4)) eqn:E1; [apply Rltb_true in E1 | apply Rltb_false in E1].
  { apply Math_floor_eq. simpl. lra. }
  destruct (Rltb r (1 / 2)) eqn:E2; [apply Rltb_true in E2 | apply Rltb_false in E2].
  { apply Math_floor_eq. simpl. lra. }
  destruct (Rltb r (3 / 4)) eqn:E3; [apply Rltb_true in E3 | apply Rltb_false in E3].
  { apply Math_floor_eq. simpl. lra. }
  apply Math_floor_eq. simpl. lra.
Qed.

(** The particle [spawnBackgroundParticle] pushes, edge by edge. *)
Lemma spawnBackgroundParticle_value (fe : frontend) (g : rng) :
  0 <= g 1%nat < 1 ->
  fst (spawnBackgroundParticle fe g) =
    let speed := 3 + g 0%nat in
    match edgeOfDraw (g 1%nat) with
    | Top =>
        mkParticle (g 5%nat) (g 2%nat * CANVAS_WIDTH) (-10)
                   ((g 3%nat - 0.5) * speed) (g 4%nat * speed) background_photon 400 []
    | Right =>
        mkParticle (g 5%nat) (CANVAS_WIDTH + 10) (g 2%nat * CANVAS_HEIGHT)
                   (- g 3%nat * speed) ((g 4%nat - 0.5) * speed) background_photon 400 []
    | Bottom =>
        mkParticle (g 5%nat) (g 2%nat * CANVAS_WIDTH) (CANVAS_HEIGHT + 10)
                   ((g 3%nat - 0.5) * speed) (- g 4%nat * speed) background_photon 400 []
    | Left =>
        mkParticle (g 5%nat) (-10) (g 2%nat * CANVAS_HEIGHT)
                   (g 3%nat * speed) ((g 4%nat - 0.5) * speed) background_photon 400 []
    end.
Proof.
  intros Hr. unfold spawnBackgroundParticle, bind, ret, Math_random. cbv beta zeta.
  rewrite (edge_of_draw _ Hr).
  destruct (edgeOfDraw (g 1%nat)), fe; reflexivity.
Qed.

(** The background photon spawned when every draw is 0: from the top edge,
    at (0, -10), with velocity (-1.5, 0). *)
Lemma spawnBackgroundParticle_zeros (fe : frontend) :
  x (fst (spawnBackgroundParticle fe zeros)) = 0 /\
  y (fst (spawnBackgroundParticle fe zeros)) = -10 /\
  vx (fst (spawnBackgroundParticle fe zeros)) = -1.5 /\
  vy (fst (spawnBackgroundParticle fe zeros)) = 0.
Proof.
  assert (Hz : 0 <= zeros 1%nat < 1) by (unfold zeros; lra).
  rewrite (spawnBackgroundParticle_value fe zeros Hz). cbv zeta.
  assert (He : edgeOfDraw (zeros 1%nat) = Top).
  { unfold edgeOfDraw, zeros.
    assert (H : Rltb 0 (1 / 4) = true) by (apply Rltb_true; lra).
    rewrite H. reflexivity. }
  rewrite He. unfold zeros, CANVAS_WIDTH. simpl. repeat split; lra.
Qed.

(** C9, as stated, fails: when the draw that scales the component
    perpendicular to the edge is 0, the particle starts outside the top
    edge with no velocity toward the scene, and outside no other edge. *)
Lemma background_photon_not_always_inward :
  ~ (forall (fe : frontend) (g : rng),
        valid_rng g ->
        exists e : edge,
          startsOutside e (fst (spawnBackgroundParticle fe g)) /\
          0 < inwardSpeed e (fst (spawnBackgroundParticle fe g))).
Proof.
  intros H.
  assert (Hv : valid_rng zeros) by (intros n; unfold zeros; lra).
  destruct (H SimulatorJs zeros Hv) as [e [Hs Hi]].
  destruct (spawnBackgroundParticle_zeros SimulatorJs) as (Hx & Hy & Hvx & Hvy).
  destruct e; simpl in Hs, Hi; lra.
Qed.

(** C9, amended: every background photon starts 10 units outside the edge
    its second draw selects (one quarter of the unit interval per edge),
    at the point along that edge its third draw gives, with an empty
    trail, life 400 and a velocity whose component perpendicular to the
    edge never points out of the scene: it is a draw times the speed,
    below 4, strictly inward whenever that draw is not 0. *)
Theorem background_photon_spawn (fe : frontend) (g : rng) :
  valid_rng g ->
  type (fst (spawnBackgroundParticle fe g)) = background_photon /\
  life (fst (spawnBackgroundParticle fe g)) = 400%Z /\
  history (fst (spawnBackgroundParticle fe g)) = [] /\
  startsOutside (edgeOfDraw (g 1%nat)) (fst (spawnBackgroundParticle fe g)) /\
  inwardSpeed (edgeOfDraw (g 1%nat)) (fst (spawnBackgroundParticle fe g))
  = g (inwardDraw (edgeOfDraw (g 1%nat))) * (3 + g 0%nat) /\
  0 <= inwardSpeed (edgeOfDraw (g 1%nat)) (fst (spawnBackgroundParticle fe g)) < 4 /\
  (0 < g (inwardDraw (edgeOfDraw (g 1%nat))) ->
   0 < inwardSpeed (edgeOfDraw (g 1%nat)) (fst (spawnBackgroundParticle fe g))).
Proof.
  intros Hv.
  pose proof (Hv 0%nat) as H0. pose proof (Hv 2%nat) as H2.
  pose proof (Hv 3%nat) as H3. pose proof (Hv 4%nat) as H4.
  rewrite (spawnBackgroundParticle_value fe g (Hv 1%nat)). cbv zeta.
  unfold CANVAS_WIDTH, CANVAS_HEIGHT.
  destruct (edgeOfDraw (g 1%nat)); simpl;
    (repeat split; try reflexivity; try lra; try nra).
Qed.

Lemma background_photon_spawn_witness :
  type (fst (spawnBackgroundParticle AppTsx halves)) = background_photon /\
  life (fst (spawnBackgroundParticle AppTsx halves)) = 400%Z /\
  history (fst (spawnBackgroundParticle AppTsx halves)) = [] /\
  startsOutside (edgeOfDraw (halves 1%nat)) (fst (spawnBackgroundParticle AppTsx halves)) /\
  inwardSpeed (edgeOfDraw (halves 1%nat)) (fst (spawnBackgroundParticle AppTsx halves))
  = halves (inwardDraw (edgeOfDraw (halves 1%nat))) * (3 + halves 0%nat) /\
  0 <= inwardSpeed (edgeOfDraw (halves 1%nat)) (fst (spawnBackgroundParticle AppTsx halves)) < 4 /\
  (0 < halves (inwardDraw (edgeOfDraw (halves 1%nat))) ->
   0 < inwardSpeed (edgeOfDraw (halves 1%nat)) (fst (spawnBackgroundParticle AppTsx halves))).
Proof.
  apply (background_photon_spawn AppTsx halves).
  intros n. unfold halves. lra.
Defined.

(** ** Reset *)

(** App.tsx from load: one dose sample at noise factor 1, then Reset. *)
Lemma handleReset_after_sample :
  doseRateDisplay (fst (run AppTsx [DoseSample; Reset] (initialState AppTsx 80) halves))
  = "0.411"%string.
Proof.
  change (toFixed3 (currentDose 80 true * (1 + (0.5 * 0.04 - 0.02))) = "0.411"%string).
  replace (currentDose 80 true * (1 + (0.5 * 0.04 - 0.02))) with (currentDose 80 true) by lra.
  exact toFixed3_currentDose_80.
Qed.

(** C7: what the two reset handlers do.  Both zero the counter and empty
    the store.  The listener of simulator.js sets the displayed dose to
    0.150, the display of the background alone; [handleReset] of App.tsx
    leaves the displayed dose as it was, so that after a sample at 80 cm
    it still reads 0.411. *)
Theorem handleReset_keeps_dose_display :
  (forall (fe : frontend) (st : State),
      counts (reset fe st) = 0%Z /\ particles (reset fe st) = []) /\
  (forall st : State, doseRateDisplay (reset SimulatorJs st) = "0.150"%string) /\
  toFixed3 B_CONST = "0.150"%string /\
  (forall st : State, doseRateDisplay (reset AppTsx st) = doseRateDisplay st) /\
  doseRateDisplay (fst (run AppTsx [DoseSample; Reset] (initialState AppTsx 80) halves))
  = "0.411"%string /\
  doseRateDisplay (fst (run AppTsx [DoseSample; Reset] (initialState AppTsx 80) halves))
  <> "0.150"%string.
Proof.
  refine (conj _ (conj _ (conj _ (conj _ (conj _ _))))).
  - intros fe st. destruct fe; split; reflexivity.
  - intros st. reflexivity.
  - exact toFixed3_background.
  - intros st. reflexivity.
  - exact handleReset_after_sample.
  - rewrite handleReset_after_sample. discriminate.
Qed.

(** ** FieldSampler *)

Lemma Math_ceil_IZR (z : Z) : Math_ceil (IZR z) = z.
Proof.
  unfold Math_ceil. rewrite <- opp_IZR.
  assert (H : Int_part (IZR (- z)) = (- z)%Z).
  { symmetry. apply Int_part_spec. lra. }
  rewrite H. lia.
Qed.

Lemma cols_rows : cols = 100%Z /\ rows = 50%Z.
Proof.
  unfold cols, rows, CANVAS_WIDTH, CANVAS_HEIGHT, blockSize.
  replace (800 / 8) with (IZR 100) by lra.
  replace (400 / 8) with (IZR 50) by lra.
  rewrite !Math_ceil_IZR. tauto.
Qed.

Lemma drawHeatmap_blocks (open : bool) (f : fill) :
  In f (drawHeatmap open)
  <-> exists i j : nat, (i < 100)%nat /\ (j < 50)%nat /\ f = drawBlock open i j.
Proof.
  unfold drawHeatmap. destruct cols_rows as [Hc Hr]. rewrite Hc, Hr.
  rewrite in_flat_map. split.
  - intros (i & Hi & Hf). apply in_map_iff in Hf. destruct Hf as (j & Hf & Hj).
    apply in_seq in Hi. apply in_seq in Hj. exists i, j.
    change (Z.to_nat 100) with 100%nat in Hi. change (Z.to_nat 50) with 50%nat in Hj.
    repeat split; [lia | lia | congruence].
  - intros (i & j & Hi & Hj & Hf). exists i. split.
    + apply in_seq. change (Z.to_nat 100) with 100%nat. lia.
    + apply in_map_iff. exists j. split; [congruence |].
      apply in_seq. change (Z.to_nat 50) with 50%nat. lia.
Qed.

(** The field value of a block is the formula at the distance of its
    top-left corner ([8 i], [8 j]) from the centre (125, 200) of the slab. *)
Lemma fieldValue_formula (open : bool) (i j : nat) :
  fieldValue open i j =
    doseFormula open
      (Rmax (sqrt ((8 * INR i - 125) * (8 * INR i - 125)
                   + (8 * INR j - 200) * (8 * INR j - 200)) / 4 / 100) 0.01).
Proof.
  unfold fieldValue, doseFormula, blockSize, PMMA_X, PMMA_VISUAL_THICKNESS, CENTER_Y,
    CANVAS_HEIGHT, SOURCE_X, SOURCE_TO_PMMA_CM, PX_PER_CM.
  destruct open; [| lra]. cbv zeta.
  replace (INR i * 8 - (80 + 10 * 4 + 10 / 2)) with (8 * INR i - 125) by lra.
  replace (INR j * 8 - 400 / 2) with (8 * INR j - 200) by lra.
  reflexivity.
Qed.

Lemma colorParam_range (v : R) : 0 <= colorParam v <= 1.
Proof.
  unfold colorParam. cbv zeta. split; [apply Rmax_l |].
  apply Rmax_lub; [lra | apply Rmin_l].
Qed.

(** At the first block the corner is farther from the slab than the
    centre, and the sampled value is lower than the value at the centre. *)
Lemma fieldValue_first_block : fieldValue true 0 0 < spec_fieldValue true 0 0.
Proof.
  rewrite fieldValue_formula. unfold spec_fieldValue, blockSize, PMMA_X,
    PMMA_VISUAL_THICKNESS, CENTER_Y, CANVAS_HEIGHT, SOURCE_X, SOURCE_TO_PMMA_CM, PX_PER_CM.
  cbv zeta. simpl INR.
  replace ((8 * 0 - 125) * (8 * 0 - 125) + (8 * 0 - 200) * (8 * 0 - 200)) with 55625 by lra.
  replace ((0 * 8 + 8 / 2 - (80 + 10 * 4 + 10 / 2)) * (0 * 8 + 8 / 2 - (80 + 10 * 4 + 10 / 2))
           + (0 * 8 + 8 / 2 - 400 / 2) * (0 * 8 + 8 / 2 - 400 / 2)) with 53057 by lra.
  assert (H4 : sqrt (4 * 4) = 4) by (apply sqrt_square; lra).
  assert (Ha : sqrt (4 * 4) < sqrt 53057) by (apply sqrt_lt_1; lra).
  assert (Hb : sqrt 53057 < sqrt 55625) by (apply sqrt_lt_1; lra).
  rewrite !Rmax_left by lra.
  apply doseFormula_decreasing; lra.
Qed.

(** C8: what the field sampler computes.  The blocks are the 100 by 50
    squares of side 8; the value of a block is the DoseModel formula at
    the distance, floored at 0.01 m, between the centre of the slab and
    the top-left corner of the block, not its centre: at the first block
    the value is below the one the centre gives.  The colour parameter is
    the clamped logarithmic ratio and the hue is [240 (1 - t)]. *)
Theorem drawHeatmap_samples_block_corner :
  (forall (open : bool) (f : fill),
      In f (drawHeatmap open)
      <-> exists i j : nat, (i < 100)%nat /\ (j < 50)%nat /\ f = drawBlock open i j) /\
  (forall (open : bool) (i j : nat),
      fill_hue (drawBlock open i j) = hueOf (fieldValue open i j) /\
      fieldValue open i j =
        doseFormula open
          (Rmax (sqrt ((8 * INR i - 125) * (8 * INR i - 125)
                       + (8 * INR j - 200) * (8 * INR j - 200)) / 4 / 100) 0.01)) /\
  fieldValue true 0 0 < spec_fieldValue true 0 0 /\
  (forall v : R,
      colorParam v
      = Rmax 0 (Rmin 1 ((Math_log10 v - Math_log10 0.15)
                        / (Math_log10 50 - Math_log10 0.15))) /\
      0 <= colorParam v <= 1 /\
      hueOf v = 240 * (1 - colorParam v)).
Proof.
  refine (conj drawHeatmap_blocks (conj _ (conj fieldValue_first_block _))).
  - intros open i j. split; [reflexivity | apply fieldValue_formula].
  - intros v. refine (conj _ (conj (colorParam_range v) _)).
    + reflexivity.
    + unfold hueOf. cbv zeta. lra.
Qed.

(** * Further properties of the engine *)

(** ** Draws *)

Lemma valid_rng_tail (g : rng) : valid_rng g -> valid_rng (fun n => g (S n)).
Proof. intros H n. apply H. Qed.

Lemma spawnParticle_value (g : rng) :
  spawnParticle g =
    (mkParticle (g 1%nat) (SOURCE_X + 10) CENTER_Y (6 + g 2%nat * 2)
                ((g 0%nat - 0.5) * 2) beta 200 [],
     fun n => g (S (S (S n)))).
Proof. reflexivity. Qed.

Lemma spawnBackgroundParticle_rng (fe : frontend) (g : rng) :
  0 <= g 1%nat < 1 ->
  snd (spawnBackgroundParticle fe g) = fun n => g (S (S (S (S (S (S n)))))).
Proof.
  intros Hr. unfold spawnBackgroundParticle, bind, ret, Math_random. cbv beta zeta.
  rewrite (edge_of_draw _ Hr).
  destruct (edgeOfDraw (g 1%nat)), fe; reflexivity.
Qed.

Lemma updateParticle_rng (fe : frontend) (dX : R) (p : Particle) (c : Z) (g : rng) :
  snd (updateParticle fe dX p c g)
  = if hitsPMMA (recordTrail (move fe p)) then (fun n => g (S n)) else g.
Proof.
  destruct (hitsPMMA (recordTrail (move fe p))) eqn:E.
  - pose proof (updateParticle_transition fe dX p c g E) as H. cbv zeta in H. tauto.
  - pose proof (updateParticle_no_transition fe dX p c g E) as H. cbv zeta in H. tauto.
Qed.

Lemma updateParticle_valid (fe : frontend) (dX : R) (p : Particle) (c : Z) (g : rng) :
  valid_rng g -> valid_rng (snd (updateParticle fe dX p c g)).
Proof.
  intros H. rewrite updateParticle_rng.
  destruct (hitsPMMA (recordTrail (move fe p))); [apply valid_rng_tail |]; exact H.
Qed.

(** ** Life and bounds after one tick *)

Lemma outOfBounds_false (p : Particle) : outOfBounds p = false <-> inBounds p.
Proof.
  unfold outOfBounds, inBounds, CANVAS_WIDTH, CANVAS_HEIGHT.
  rewrite !orb_false_iff, !Rltb_false. intuition lra.
Qed.

(** The life a tick leaves: 0, or for a particle neither absorbed nor out
    of bounds the budget of a fresh photon (simulator.js) on conversion
    and otherwise the life it had, less 1 in simulator.js. *)
Lemma updateParticle_life (fe : frontend) (dX : R) (p : Particle) (c : Z) (g : rng) :
  let p' := fst (fst (updateParticle fe dX p c g)) in
  life p' = 0%Z \/
  (outOfBounds p' = false /\ hitsDetector dX p' = false /\
   life p' = if hitsPMMA (recordTrail (move fe p))
             then match fe with SimulatorJs => 400%Z | AppTsx => life p end
             else match fe with SimulatorJs => (life p - 1)%Z | AppTsx => life p end).
Proof.
  cbv zeta. rewrite updateParticle_unfold. cbv zeta.
  destruct (recordTrail_fields (move fe p)) as (_ & _ & _ & _ & _ & Hl & _).
  destruct (move_fields fe p) as (_ & _ & _ & _ & _ & _ & Ml).
  destruct (hitsPMMA (recordTrail (move fe p))).
  - unfold bremsstrahlung, bind, ret, Math_random. cbv zeta.
    match goal with |- context [hitsDetector dX ?q] => destruct (hitsDetector dX q) eqn:Hd end;
      match goal with |- context [if outOfBounds ?q then _ else _] =>
        destruct (outOfBounds q) eqn:Ho end;
      try (left; reflexivity).
    right. destruct fe; simpl in *; rewrite ?Hl, ?Ml; tauto.
  - destruct (hitsDetector dX (recordTrail (move fe p))) eqn:Hd;
      match goal with |- context [if outOfBounds ?q then _ else _] =>
        destruct (outOfBounds q) eqn:Ho end;
      try (left; reflexivity).
    right. simpl. rewrite Hl, Ml. destruct fe; tauto.
Qed.

(** ** The invariant over one tick *)

Lemma updateParticle_inv (fe : frontend) (dX : R) (p : Particle) (c : Z) (g : rng) :
  0 <= g 0%nat < 1 ->
  particleInv fe p ->
  (0 < life (fst (fst (updateParticle fe dX p c g))))%Z ->
  particleInv fe (fst (fst (updateParticle fe dX p c g))).
Proof.
  intros Hg (Hb & Hl & Hk) Hpos.
  destruct (updateParticle_life fe dX p c g) as [H0 | (Ho & _ & Hlife)]; [lia |].
  apply outOfBounds_false in Ho.
  unfold particleInv. refine (conj Ho _).
  destruct (hitsPMMA (recordTrail (move fe p))) eqn:E.
  - pose proof (updateParticle_transition fe dX p c g E) as H. cbv zeta in H.
    destruct H as (_ & Ht & Hvx & Hvy & Hx & _ & _).
    apply hitsPMMA_moved in E. destruct E as [Hbeta [Hsx Hsy]].
    unfold lifeInv, kinematicInv in *. rewrite Ht. rewrite Hbeta in Hl, Hk.
    split.
    + destruct fe; lia.
    + rewrite Hx, Hvx, Hvy.
      pose proof (emission_angle_range _ Hg) as Ha.
      assert (Hc : 1 / 2 <= cos ((g 0%nat - 0.5) * (PI / 1.5))) by (apply cos_third_turn; lra).
      pose proof (cos_sin_speed ((g 0%nat - 0.5) * (PI / 1.5)) 4) as Hm.
      repeat split; lra.
  - pose proof (updateParticle_no_transition fe dX p c g E) as H. cbv zeta in H.
    destruct H as (_ & Ht & Hvx & Hvy & Hx & Hy & _).
    assert (Hns : type p = beta -> ~ inSlab (x p + vx p) (y p + vy p)).
    { intros Hbeta Hs.
      assert (hitsPMMA (recordTrail (move fe p)) = true) by (apply hitsPMMA_moved; tauto).
      congruence. }
    unfold lifeInv, kinematicInv in *. rewrite Ht, Hx, Hy, Hvx, Hvy.
    destruct (type p) eqn:T.
    + split; [destruct fe; lia |].
      specialize (Hns eq_refl). unfold inSlab in Hns.
      destruct Hk as (Hkx & Hkv & Hkw & Hky).
      assert (x p + vx p < 120) by (destruct (Rlt_dec (x p + vx p) 120); [assumption | exfalso; apply Hns; lra]).
      repeat split; lra.
    + split; [destruct fe; lia |]. repeat split; lra.
    + split; [destruct fe; lia |]. exact Hk.
Qed.

Lemma forEachParticle_inv (fe : frontend) (dX : R) (ps : list Particle) :
  forall (c : Z) (g : rng),
    valid_rng g ->
    Forall (particleInv fe) ps ->
    Forall (particleInv fe) (removeDead fe (fst (fst (forEachParticle fe dX ps c g)))) /\
    valid_rng (snd (forEachParticle fe dX ps c g)).
Proof.
  induction ps as [| p ps IH]; intros c g Hg H.
  - split; [destruct fe; constructor | exact Hg].
  - inversion H as [| ? ? Hp Hps]; subst.
    simpl. unfold bind, ret.
    pose proof (updateParticle_inv fe dX p c g (Hg 0%nat) Hp) as Hp'.
    pose proof (updateParticle_valid fe dX p c g Hg) as Hg'.
    destruct (updateParticle fe dX p c g) as [[p' c0] g0]. simpl in Hp', Hg'.
    destruct (IH c0 g0 Hg' Hps) as [Hps' Hg''].
    destruct (forEachParticle fe dX ps c0 g0) as [[ps' c1] g1]. simpl in *.
    split; [| exact Hg''].
    change (p' :: ps') with ([p'] ++ ps'). rewrite removeDead_app.
    apply Forall_app. split; [| exact Hps'].
    rewrite removeDead_filter. simpl.
    destruct (Z.ltb_spec 0 (life p')); constructor; [apply Hp'; assumption | constructor].
Qed.

Lemma updateParticles_inv (fe : frontend) (d : R) (ps : list Particle) (c : Z) (g : rng) :
  valid_rng g ->
  Forall (particleInv fe) ps ->
  Forall (particleInv fe) (fst (fst (updateParticles fe d ps c g))) /\
  valid_rng (snd (updateParticles fe d ps c g)).
Proof.
  intros Hg H. unfold updateParticles, bind, ret. cbv zeta.
  pose proof (forEachParticle_inv fe (detectorXOf d) ps c g Hg H) as H'.
  destruct (forEachParticle fe (detectorXOf d) ps c g) as [[ps' c'] g']. exact H'.
Qed.

(** ** The invariant at spawn *)

Lemma spawnParticle_inv (fe : frontend) (g : rng) :
  valid_rng g ->
  particleInv fe (fst (spawnParticle g)) /\ valid_rng (snd (spawnParticle g)).
Proof.
  intros Hg. rewrite spawnParticle_value. simpl. split.
  - pose proof (Hg 0%nat). pose proof (Hg 2%nat).
    unfold particleInv, inBounds, lifeInv, kinematicInv, SOURCE_X, CENTER_Y, CANVAS_HEIGHT.
    simpl. destruct fe; repeat split; try lia; lra.
  - intros n. apply Hg.
Qed.

Lemma spawnParticles_inv (fe : frontend) (n : nat) :
  forall (ps : list Particle) (g : rng),
    valid_rng g ->
    Forall (particleInv fe) ps ->
    Forall (particleInv fe) (fst (spawnParticles n ps g)) /\
    valid_rng (snd (spawnParticles n ps g)).
Proof.
  induction n as [| n IH]; intros ps g Hg H; [split; assumption |].
  simpl. unfold bind.
  destruct (spawnParticle_inv fe g Hg) as [Hp Hg'].
  destruct (spawnParticle g) as [p g']. simpl in Hp, Hg'.
  apply IH; [exact Hg' |]. apply Forall_app. split; [exact H | constructor; [exact Hp | constructor]].
Qed.

Lemma spawnBackgroundParticle_inv (fe : frontend) (g : rng) :
  valid_rng g ->
  particleInv fe (fst (spawnBackgroundParticle fe g)) /\
  valid_rng (snd (spawnBackgroundParticle fe g)).
Proof.
  intros Hg. split.
  - pose proof (Hg 0%nat). pose proof (Hg 2%nat). pose proof (Hg 3%nat). pose proof (Hg 4%nat).
    rewrite (spawnBackgroundParticle_value fe g (Hg 1%nat)). cbv zeta.
    unfold particleInv, inBounds, lifeInv, kinematicInv, CANVAS_WIDTH, CANVAS_HEIGHT.
    destruct (edgeOfDraw (g 1%nat)); simpl; destruct fe;
      repeat split; try reflexivity; try lia; try lra; nra.
  - rewrite (spawnBackgroundParticle_rng fe g (Hg 1%nat)). intros n. apply Hg.
Qed.

(** ** The invariant over the clock and the controls *)

(** Sequencing keeps the draws valid and carries a property from one
    computation to the next. *)
Lemma bind_valid {A B : Type} (m : Rand A) (f : A -> Rand B)
    (P : A -> Prop) (Q : B -> Prop) (g : rng) :
  valid_rng g ->
  (forall g0, valid_rng g0 -> P (fst (m g0)) /\ valid_rng (snd (m g0))) ->
  (forall a g0, P a -> valid_rng g0 -> Q (fst (f a g0)) /\ valid_rng (snd (f a g0))) ->
  Q (fst (bind m f g)) /\ valid_rng (snd (bind m f g)).
Proof.
  intros Hg Hm Hf. unfold bind.
  destruct (Hm g Hg) as [Hp Hg']. destruct (m g) as [a g']. apply Hf; assumption.
Qed.

Lemma tick_inv (fe : frontend) (st : State) (g : rng) :
  valid_rng g ->
  Forall (particleInv fe) (particles st) ->
  Forall (particleInv fe) (particles (fst (tick fe st g))) /\
  valid_rng (snd (tick fe st g)).
Proof.
  intros Hg H. unfold tick.
  apply (bind_valid _ _ (Forall (particleInv fe))
           (fun st' => Forall (particleInv fe) (particles st'))); [exact Hg | |].
  { intros g0 Hg0.
    destruct (sourceOpen st); [apply spawnParticles_inv; assumption | split; assumption]. }
  intros ps1 g1 H1 Hg1.
  apply (bind_valid _ _ (fun _ => True)
           (fun st' => Forall (particleInv fe) (particles st'))); [exact Hg1 | |].
  { intros g0 Hg0. split; [exact I | apply valid_rng_tail, Hg0]. }
  intros r g2 _ Hg2.
  apply (bind_valid _ _ (Forall (particleInv fe))
           (fun st' => Forall (particleInv fe) (particles st'))); [exact Hg2 | |].
  { intros g0 Hg0. destruct (Rltb r 0.3); [| split; assumption].
    apply (bind_valid _ _ (particleInv fe) (Forall (particleInv fe))); [exact Hg0 | |].
    - intros g3 Hg3. apply spawnBackgroundParticle_inv, Hg3.
    - intros q g3 Hq Hg3. split; [| exact Hg3].
      apply Forall_app. split; [exact H1 | constructor; [exact Hq | constructor]]. }
  intros ps2 g3 H2 Hg3.
  apply (bind_valid _ _ (fun r => Forall (particleInv fe) (fst r))
           (fun st' => Forall (particleInv fe) (particles st'))); [exact Hg3 | |].
  { intros g0 Hg0. apply updateParticles_inv; assumption. }
  intros [ps3 c3] g4 H3 Hg4. split; assumption.
Qed.

Lemma step_inv (fe : frontend) (ev : event) (st : State) (g : rng) :
  valid_rng g ->
  Forall (particleInv fe) (particles st) ->
  Forall (particleInv fe) (particles (fst (step fe ev st g))) /\
  valid_rng (snd (step fe ev st g)).
Proof.
  intros Hg H. destruct ev as [| | cm | | b |]; simpl.
  - apply tick_inv; assumption.
  - split; [exact H | apply valid_rng_tail, Hg].
  - split; assumption.
  - split; assumption.
  - split; assumption.
  - split; [destruct fe; constructor | exact Hg].
Qed.

Lemma run_inv (fe : frontend) (evs : list event) :
  forall (st : State) (g : rng),
    valid_rng g ->
    Forall (particleInv fe) (particles st) ->
    Forall (particleInv fe) (particles (fst (run fe evs st g))) /\
    valid_rng (snd (run fe evs st g)).
Proof.
  induction evs as [| ev evs IH]; intros st g Hg H; [split; assumption |].
  simpl. unfold bind.
  destruct (step_inv fe ev st g Hg H) as [H' Hg'].
  destruct (step fe ev st g) as [st' g']. apply IH; assumption.
Qed.

Lemma reachable_inv (fe : frontend) (slider : Z) (evs : list event) (g : rng) (p : Particle) :
  valid_rng g ->
  In p (particles (fst (run fe evs (initialState fe slider) g))) ->
  particleInv fe p.
Proof.
  intros Hg Hin.
  destruct (run_inv fe evs (initialState fe slider) g Hg) as [H _]; [constructor |].
  rewrite Forall_forall in H. apply H, Hin.
Qed.

(** ** What holds of every stored particle *)

(** X1: whatever the events and the draws, a beta in the store lies
    between the source and the near face of the slab, inside the cone of
    the beam: no beta is ever at or past the slab. *)
Theorem betas_stay_before_the_slab (fe : frontend) (slider : Z) (evs : list event) (g : rng) :
  valid_rng g ->
  Forall (fun p => type p = beta ->
                   90 <= x p < 120 /\ 195 < y p < 205 /\
                   6 <= vx p < 8 /\ -1 <= vy p < 1)
         (particles (fst (run fe evs (initialState fe slider) g))).
Proof.
  intros Hg.
  destruct (run_inv fe evs (initialState fe slider) g Hg) as [H _]; [constructor |].
  eapply Forall_impl; [| exact H].
  intros p (_ & _ & Hk) Hb. unfold kinematicInv in Hk. rewrite Hb in Hk.
  repeat split; lra.
Qed.

Lemma betas_stay_before_the_slab_witness :
  Forall (fun p => type p = beta ->
                   90 <= x p < 120 /\ 195 < y p < 205 /\
                   6 <= vx p < 8 /\ -1 <= vy p < 1)
         (particles (fst (run SimulatorJs [Frame; Frame; Frame] (initialState SimulatorJs 80) halves))).
Proof.
  apply (betas_stay_before_the_slab SimulatorJs 80 [Frame; Frame; Frame] halves).
  intros n. unfold halves. lra.
Defined.

(** X2: whatever the events and the draws, a photon in the store is at or
    past the near face of the slab and moves at speed 4 with a horizontal
    velocity of at least 2: converted photons only ever travel away from
    the source. *)
Theorem photons_travel_away_from_source (fe : frontend) (slider : Z) (evs : list event)
    (g : rng) :
  valid_rng g ->
  Forall (fun p => type p = photon ->
                   120 <= x p /\ 2 <= vx p /\ vx p * vx p + vy p * vy p = 16)
         (particles (fst (run fe evs (initialState fe slider) g))).
Proof.
  intros Hg.
  destruct (run_inv fe evs (initialState fe slider) g Hg) as [H _]; [constructor |].
  eapply Forall_impl; [| exact H].
  intros p (_ & _ & Hk) Hb. unfold kinematicInv in Hk. rewrite Hb in Hk. exact Hk.
Qed.

Lemma photons_travel_away_from_source_witness :
  Forall (fun p => type p = photon ->
                   120 <= x p /\ 2 <= vx p /\ vx p * vx p + vy p * vy p = 16)
         (particles (fst (run AppTsx [Frame; Frame; Frame; Frame; Frame; Frame]
                              (initialState AppTsx 80) halves))).
Proof.
  apply (photons_travel_away_from_source AppTsx 80
           [Frame; Frame; Frame; Frame; Frame; Frame] halves).
  intros n. unfold halves. lra.
Defined.

(** X3: whatever the events and the draws, every stored particle is inside
    the rectangle of the boundary cleanup and has a positive life.  In
    simulator.js the life is a countdown, at most 200 for a beta and 400
    for the others; in App.tsx it is never decremented: it is exactly 400
    for a background photon and exactly 200 for a beta and for a photon,
    which keeps the life of the beta it came from. *)
Theorem stored_particles_life_and_bounds (fe : frontend) (slider : Z) (evs : list event)
    (g : rng) :
  valid_rng g ->
  Forall (fun p =>
            (-20 <= x p <= 820 /\ -20 <= y p <= 420) /\
            match fe with
            | SimulatorJs =>
                (0 < life p <= match type p with beta => 200 | _ => 400 end)%Z
            | AppTsx =>
                life p = match type p with background_photon => 400 | _ => 200 end%Z
            end)
         (particles (fst (run fe evs (initialState fe slider) g))).
Proof.
  intros Hg.
  destruct (run_inv fe evs (initialState fe slider) g Hg) as [H _]; [constructor |].
  eapply Forall_impl; [| exact H].
  intros p (Hb & Hl & _). split; [exact Hb |].
  unfold lifeInv in Hl. destruct fe, (type p); exact Hl.
Qed.

Lemma stored_particles_life_and_bounds_witness :
  Forall (fun p =>
            (-20 <= x p <= 820 /\ -20 <= y p <= 420) /\
            life p = match type p with background_photon => 400 | _ => 200 end%Z)
         (particles (fst (run AppTsx [Frame; SetDistance 20; Frame]
                              (initialState AppTsx 80) zeros))).
Proof.
  apply (stored_particles_life_and_bounds AppTsx 80 [Frame; SetDistance 20; Frame] zeros).
  intros n. unfold zeros. lra.
Defined.

(** ** From the source to the slab *)

Lemma updateParticle_life_exact (fe : frontend) (dX : R) (p : Particle) (c : Z) (g : rng) :
  let p' := fst (fst (updateParticle fe dX p c g)) in
  life p' = if hitsDetector dX p' || outOfBounds p' then 0%Z
            else if hitsPMMA (recordTrail (move fe p))
                 then match fe with SimulatorJs => 400%Z | AppTsx => life p end
                 else match fe with SimulatorJs => (life p - 1)%Z | AppTsx => life p end.
Proof.
  cbv zeta. rewrite updateParticle_unfold. cbv zeta.
  destruct (recordTrail_fields (move fe p)) as (_ & _ & _ & _ & _ & Hl & _).
  destruct (move_fields fe p) as (_ & _ & _ & _ & _ & _ & Ml).
  destruct (hitsPMMA (recordTrail (move fe p))).
  - unfold bremsstrahlung, bind, ret, Math_random. cbv zeta.
    match goal with |- context [hitsDetector dX ?q] => destruct (hitsDetector dX q) eqn:Hd end;
      match goal with |- context [if outOfBounds ?q then _ else _] =>
        destruct (outOfBounds q) eqn:Ho end;
      cbn [fst snd]; rewrite ?hitsDetector_set_life, ?outOfBounds_set_life;
      rewrite ?outOfBounds_set_life in Ho; rewrite ?Hd, ?Ho; try reflexivity;
      destruct fe; simpl in *; rewrite ?Hl; reflexivity.
  - destruct (hitsDetector dX (recordTrail (move fe p))) eqn:Hd;
      match goal with |- context [if outOfBounds ?q then _ else _] =>
        destruct (outOfBounds q) eqn:Ho end;
      cbn [fst snd]; rewrite ?hitsDetector_set_life, ?outOfBounds_set_life;
      rewrite ?outOfBounds_set_life in Ho; rewrite ?Hd, ?Ho; try reflexivity;
      destruct fe; simpl in *; rewrite ?Hl; reflexivity.
Qed.

Lemma removeDead_live (fe : frontend) (p : Particle) :
  (0 < life p)%Z -> removeDead fe [p] = [p].
Proof.
  intros H. rewrite removeDead_filter. simpl.
  destruct (Z.ltb_spec 0 (life p)); [reflexivity | lia].
Qed.

(** One tick of a beta that does not reach the slab. *)
Lemma beta_flight_step (fe : frontend) (dX : R) (p : Particle) (c : Z) (g : rng) :
  type p = beta ->
  kinematicInv p ->
  ~ inSlab (x p + vx p) (y p + vy p) ->
  let p' := fst (fst (updateParticle fe dX p c g)) in
  type p' = beta /\ kinematicInv p' /\ x p + 6 <= x p' /\
  life p' = match fe with SimulatorJs => (life p - 1)%Z | AppTsx => life p end.
Proof.
  intros Hb Hk Hns. cbv zeta.
  assert (E : hitsPMMA (recordTrail (move fe p)) = false).
  { destruct (hitsPMMA (recordTrail (move fe p))) eqn:E; [| reflexivity].
    apply hitsPMMA_moved in E. tauto. }
  pose proof (updateParticle_no_transition fe dX p c g E) as H. cbv zeta in H.
  destruct H as (_ & Ht & Hvx & Hvy & Hx & Hy & _).
  pose proof (updateParticle_life_exact fe dX p c g) as Hl. cbv zeta in Hl.
  rewrite E in Hl.
  unfold kinematicInv in Hk. rewrite Hb in Hk. destruct Hk as (Hkx & Hkv & Hkw & Hky).
  unfold inSlab in Hns.
  assert (Hlt : x p + vx p < 120)
    by (destruct (Rlt_dec (x p + vx p) 120); [assumption | exfalso; apply Hns; lra]).
  assert (Hd : hitsDetector dX (fst (fst (updateParticle fe dX p c g))) = false).
  { unfold hitsDetector. rewrite Ht, Hb. reflexivity. }
  assert (Ho : outOfBounds (fst (fst (updateParticle fe dX p c g))) = false).
  { apply outOfBounds_false. unfold inBounds. rewrite Hx, Hy. lra. }
  rewrite Hd, Ho in Hl. simpl in Hl.
  refine (conj _ (conj _ (conj _ Hl))).
  - congruence.
  - unfold kinematicInv. rewrite Ht, Hb, Hx, Hy, Hvx, Hvy. repeat split; lra.
  - rewrite Hx. lra.
Qed.

Lemma beta_converts_within (fe : frontend) (m : nat) :
  forall (es : list encounter) (p : Particle) (c : Z),
    type p = beta ->
    kinematicInv p ->
    120 - 6 * INR m <= x p ->
    (Z.of_nat m < life p)%Z ->
    (m <= List.length es)%nat ->
    exists (j : nat) (q : Particle) (c' : Z),
      (j < m)%nat /\ nth_error (lifetime fe es p c) j = Some (q, c') /\ type q = photon.
Proof.
  induction m as [| m IH]; intros es p c Hb Hk Hx Hl Hlen.
  - exfalso. unfold kinematicInv in Hk. rewrite Hb in Hk. simpl in Hx. lra.
  - destruct es as [| [d g] es]; [simpl in Hlen; lia |].
    rewrite S_INR in Hx. simpl in Hlen.
    destruct (hitsPMMA (recordTrail (move fe p))) eqn:E.
    + pose proof (updateParticle_transition fe (detectorXOf d) p c g E) as H. cbv zeta in H.
      destruct H as (_ & Ht & _).
      simpl. destruct (updateParticle fe (detectorXOf d) p c g) as [[p' c'] g']. simpl in *.
      exists 0%nat, p', c'. repeat split; [lia | assumption].
    + assert (Hns : ~ inSlab (x p + vx p) (y p + vy p)).
      { intros Hs.
        assert (hitsPMMA (recordTrail (move fe p)) = true) by (apply hitsPMMA_moved; tauto).
        congruence. }
      pose proof (beta_flight_step fe (detectorXOf d) p c g Hb Hk Hns) as H. cbv zeta in H.
      destruct H as (Ht & Hk' & Hx' & Hl').
      simpl. destruct (updateParticle fe (detectorXOf d) p c g) as [[p' c'] g']. simpl in *.
      assert (Hlive : (Z.of_nat m < life p')%Z) by (destruct fe; lia).
      rewrite removeDead_live by lia.
      destruct (IH es p' c' Ht Hk' ltac:(lra) Hlive ltac:(lia)) as (j & q & c'' & Hj & Hn & Hq).
      exists (S j), q, c''. repeat split; [lia | exact Hn | exact Hq].
Qed.

(** X4: a beta the emitter spawns is a photon after at most 5 ticks,
    wherever the detector stands: within its first five ticks in the
    store there is one that leaves it a photon. *)
Theorem spawned_beta_becomes_photon (fe : frontend) (g0 : rng) (es : list encounter) (c : Z) :
  valid_rng g0 ->
  (5 <= List.length es)%nat ->
  exists (j : nat) (q : Particle) (c' : Z),
    (j < 5)%nat /\
    nth_error (lifetime fe es (fst (spawnParticle g0)) c) j = Some (q, c') /\
    type q = photon.
Proof.
  intros Hg Hlen.
  pose proof (Hg 0%nat). pose proof (Hg 2%nat).
  apply beta_converts_within; try assumption.
  - reflexivity.
  - rewrite spawnParticle_value. unfold kinematicInv, SOURCE_X, CENTER_Y, CANVAS_HEIGHT.
    simpl. repeat split; lra.
  - rewrite spawnParticle_value. unfold SOURCE_X. simpl. lra.
  - rewrite spawnParticle_value. simpl. lia.
Qed.

Lemma spawned_beta_becomes_photon_witness :
  exists (j : nat) (q : Particle) (c' : Z),
    (j < 5)%nat /\
    nth_error (lifetime SimulatorJs (repeat (80, halves) 5) (fst (spawnParticle halves)) 0) j
    = Some (q, c') /\
    type q = photon.
Proof.
  apply (spawned_beta_becomes_photon SimulatorJs halves (repeat (80, halves) 5) 0%Z).
  - intros n. unfold halves. lra.
  - simpl. lia.
Defined.

(** ** How long a particle stays in the store *)

Lemma removeDead_nil_iff (fe : frontend) (p : Particle) :
  removeDead fe [p] = [] <-> (life p <= 0)%Z.
Proof.
  rewrite removeDead_filter. simpl.
  destruct (Z.ltb_spec 0 (life p)); split; intros; try easy; lia.
Qed.

Lemma lifetime_cons (fe : frontend) (d : R) (g : rng) (es : list encounter)
    (p : Particle) (c : Z) :
  lifetime fe ((d, g) :: es) p c =
    fst (updateParticle fe (detectorXOf d) p c g)
    :: match removeDead fe [fst (fst (updateParticle fe (detectorXOf d) p c g))] with
       | [] => []
       | _ => lifetime fe es (fst (fst (updateParticle fe (detectorXOf d) p c g)))
                       (snd (fst (updateParticle fe (detectorXOf d) p c g)))
       end.
Proof.
  simpl. destruct (updateParticle fe (detectorXOf d) p c g) as [[p' c'] g']. reflexivity.
Qed.

Lemma lifetime_bound_not_beta (es : list encounter) :
  forall (p : Particle) (c : Z),
    type p <> beta ->
    (List.length (lifetime SimulatorJs es p c) <= Z.to_nat (Z.max 1 (life p)))%nat.
Proof.
  induction es as [| [d g] es IH]; intros p c Hp; [simpl; lia |].
  assert (E : hitsPMMA (recordTrail (move SimulatorJs p)) = false).
  { destruct (hitsPMMA (recordTrail (move SimulatorJs p))) eqn:E; [| reflexivity].
    apply hitsPMMA_moved in E. tauto. }
  pose proof (updateParticle_no_transition SimulatorJs (detectorXOf d) p c g E) as H.
  pose proof (updateParticle_life_exact SimulatorJs (detectorXOf d) p c g) as Hl.
  cbv zeta in H, Hl. rewrite E in Hl. destruct H as (_ & Ht & _).
  rewrite lifetime_cons.
  destruct (updateParticle SimulatorJs (detectorXOf d) p c g) as [[p' c'] g'].
  cbn [fst snd] in *.
  destruct (Z_le_gt_dec (life p') 0) as [Hdead | Hlive].
  - rewrite removeDead_dead by assumption. simpl. lia.
  - rewrite removeDead_live by lia.
    assert (Hlp : life p' = (life p - 1)%Z).
    { destruct (hitsDetector (detectorXOf d) p' || outOfBounds p'); [lia | exact Hl]. }
    assert (Hp' : type p' <> beta) by congruence.
    specialize (IH p' c' Hp'). cbn [List.length]. lia.
Qed.

Lemma lifetime_bound_beta (es : list encounter) :
  forall (p : Particle) (c : Z),
    (List.length (lifetime SimulatorJs es p c) <= Z.to_nat (Z.max 1 (life p)) + 400)%nat.
Proof.
  induction es as [| [d g] es IH]; intros p c; [simpl; lia |].
  pose proof (updateParticle_type SimulatorJs (detectorXOf d) p c g) as Ht.
  pose proof (updateParticle_life_exact SimulatorJs (detectorXOf d) p c g) as Hl.
  cbv zeta in Ht, Hl.
  rewrite lifetime_cons.
  destruct (updateParticle SimulatorJs (detectorXOf d) p c g) as [[p' c'] g'].
  cbn [fst snd] in *.
  destruct (Z_le_gt_dec (life p') 0) as [Hdead | Hlive].
  { rewrite removeDead_dead by assumption. simpl. lia. }
  rewrite removeDead_live by lia.
  destruct Ht as [[_ E] | (_ & Hph & E)]; rewrite E in Hl.
  - assert (Hlp : life p' = (life p - 1)%Z).
    { destruct (hitsDetector (detectorXOf d) p' || outOfBounds p'); [lia | exact Hl]. }
    specialize (IH p' c'). cbn [List.length]. lia.
  - assert (Hlp : life p' = 400%Z).
    { destruct (hitsDetector (detectorXOf d) p' || outOfBounds p'); [lia | exact Hl]. }
    assert (Hp' : type p' <> beta) by congruence.
    pose proof (lifetime_bound_not_beta es p' c' Hp'). cbn [List.length]. lia.
Qed.

(** X5: in simulator.js the life is a countdown that removes a particle
    on its own: whatever its motion, a photon or background photon stays
    in the store for at most as many ticks as its life (one tick if the
    life is not positive), and a beta for at most 400 more. *)
Theorem simulator_particle_expires (es : list encounter) (p : Particle) (c : Z) :
  (List.length (lifetime SimulatorJs es p c)
   <= Z.to_nat (Z.max 1 (life p)) + match type p with beta => 400 | _ => 0 end)%nat.
Proof.
  destruct (type p) eqn:T.
  - apply lifetime_bound_beta.
  - pose proof (lifetime_bound_not_beta es p c). rewrite T in H.
    assert (photon <> beta) by discriminate. specialize (H H0). lia.
  - pose proof (lifetime_bound_not_beta es p c). rewrite T in H.
    assert (background_photon <> beta) by discriminate. specialize (H H0). lia.
Qed.

(** X6: when a tick removes a particle that had a positive life.  In
    App.tsx that is exactly when the tick finds it inside the detector or
    out of bounds; in simulator.js also when the tick does not convert it
    and its life was 1. *)
Theorem removal_criterion (fe : frontend) (dX : R) (p : Particle) (c : Z) (g : rng) :
  (0 < life p)%Z ->
  (removeDead fe [fst (fst (updateParticle fe dX p c g))] = []
   <-> hitsDetector dX (fst (fst (updateParticle fe dX p c g))) = true
       \/ outOfBounds (fst (fst (updateParticle fe dX p c g))) = true
       \/ (fe = SimulatorJs /\ life p = 1%Z
           /\ type (fst (fst (updateParticle fe dX p c g))) = type p)).
Proof.
  intros Hpos. rewrite removeDead_nil_iff.
  pose proof (updateParticle_life_exact fe dX p c g) as Hl.
  pose proof (updateParticle_type fe dX p c g) as Ht.
  cbv zeta in Hl, Ht.
  destruct (hitsDetector dX (fst (fst (updateParticle fe dX p c g)))); [simpl in Hl; split; [tauto | lia] |].
  destruct (outOfBounds (fst (fst (updateParticle fe dX p c g)))); [simpl in Hl; split; [tauto | lia] |].
  simpl in Hl.
  destruct Ht as [[Hsame E] | (Hb & Hph & E)]; rewrite E in Hl.
  - destruct fe.
    + split.
      * intros H. right. right. repeat split; [lia | exact Hsame].
      * intros [H | [H | (_ & H & _)]]; [discriminate | discriminate | lia].
    + split; [lia |].
      intros [H | [H | (H & _)]]; discriminate.
  - split.
    + destruct fe; lia.
    + intros [H | [H | (_ & _ & H)]]; [discriminate | discriminate | congruence].
Qed.

Lemma removal_criterion_witness :
  removeDead AppTsx [fst (fst (updateParticle AppTsx 450 samplePhoton 0 halves))] = []
  <-> hitsDetector 450 (fst (fst (updateParticle AppTsx 450 samplePhoton 0 halves))) = true
      \/ outOfBounds (fst (fst (updateParticle AppTsx 450 samplePhoton 0 halves))) = true
      \/ (AppTsx = SimulatorJs /\ life samplePhoton = 1%Z
          /\ type (fst (fst (updateParticle AppTsx 450 samplePhoton 0 halves)))
             = type samplePhoton).
Proof.
  apply (removal_criterion AppTsx 450 samplePhoton 0%Z halves).
  simpl. lia.
Defined.

(** One tick of App.tsx on a particle at rest outside the slab and the
    detector: only the trail changes. *)
Lemma app_rest_step (d : R) (p : Particle) (c : Z) (g : rng) :
  vx p = 0 -> vy p = 0 -> (0 < life p)%Z -> inBounds p ->
  ~ (type p = beta /\ inSlab (x p) (y p)) ->
  ~ ((type p = photon \/ type p = background_photon) /\ inDetector d (x p) (y p)) ->
  let p' := fst (fst (updateParticle AppTsx (detectorXOf d) p c g)) in
  x p' = x p /\ y p' = y p /\ vx p' = 0 /\ vy p' = 0 /\ type p' = type p /\
  life p' = life p.
Proof.
  intros Hvx Hvy Hl Hb Hs Hd. cbv zeta.
  assert (E : hitsPMMA (recordTrail (move AppTsx p)) = false).
  { destruct (hitsPMMA (recordTrail (move AppTsx p))) eqn:E; [| reflexivity].
    apply hitsPMMA_moved in E. rewrite Hvx, Hvy, !Rplus_0_r in E. tauto. }
  pose proof (updateParticle_no_transition AppTsx (detectorXOf d) p c g E) as H.
  pose proof (updateParticle_life_exact AppTsx (detectorXOf d) p c g) as Hle.
  cbv zeta in H, Hle. rewrite E in Hle.
  destruct H as (_ & Ht & Hvx' & Hvy' & Hx & Hy & _).
  rewrite Hvx, Rplus_0_r in Hx. rewrite Hvy, Rplus_0_r in Hy.
  assert (Hnd : hitsDetector (detectorXOf d)
                  (fst (fst (updateParticle AppTsx (detectorXOf d) p c g))) = false).
  { destruct (hitsDetector (detectorXOf d)
                (fst (fst (updateParticle AppTsx (detectorXOf d) p c g)))) eqn:Hh;
      [| reflexivity].
    apply hitsDetector_spec in Hh. rewrite Ht, Hx, Hy in Hh. tauto. }
  assert (Hno : outOfBounds (fst (fst (updateParticle AppTsx (detectorXOf d) p c g))) = false).
  { apply outOfBounds_false. unfold inBounds in *. rewrite Hx, Hy. exact Hb. }
  rewrite Hnd, Hno in Hle. simpl in Hle.
  repeat split; congruence.
Qed.

(** X7: App.tsx never removes a particle for its age: a particle at rest
    inside the bounds, outside the slab if it is a beta and outside the
    detector if it is a photon, is still in the store after any number of
    ticks.  The emitter can launch one: a background photon whose two
    velocity draws are 0.5 and 0. *)
Theorem app_particle_at_rest_stays (es : list encounter) (p : Particle) (c : Z) :
  vx p = 0 -> vy p = 0 -> (0 < life p)%Z -> inBounds p ->
  ~ (type p = beta /\ inSlab (x p) (y p)) ->
  Forall (fun e => ~ ((type p = photon \/ type p = background_photon)
                      /\ inDetector (fst e) (x p) (y p))) es ->
  List.length (lifetime AppTsx es p c) = List.length es /\
  Forall (fun pc => removeDead AppTsx [fst pc] = [fst pc]) (lifetime AppTsx es p c).
Proof.
  revert p c. induction es as [| [d g] es IH]; intros p c Hvx Hvy Hl Hb Hs Hd.
  - split; [reflexivity | constructor].
  - inversion Hd as [| ? ? Hd1 Hds]; subst. simpl in Hd1.
    pose proof (app_rest_step d p c g Hvx Hvy Hl Hb Hs Hd1) as H. cbv zeta in H.
    destruct H as (Hx & Hy & Hvx' & Hvy' & Ht & Hl').
    rewrite lifetime_cons.
    destruct (updateParticle AppTsx (detectorXOf d) p c g) as [[p' c'] g'].
    cbn [fst snd] in *.
    assert (Hlive : removeDead AppTsx [p'] = [p']) by (apply removeDead_live; lia).
    rewrite Hlive.
    destruct (IH p' c') as [IHlen IHall]; try assumption.
    + lia.
    + unfold inBounds in *. rewrite Hx, Hy. exact Hb.
    + rewrite Ht, Hx, Hy. exact Hs.
    + rewrite Ht, Hx, Hy. exact Hds.
    + split; [cbn [List.length]; lia |]. constructor; [exact Hlive | exact IHall].
Qed.

Lemma spawnBackgroundParticle_stall (fe : frontend) :
  fst (spawnBackgroundParticle fe stall)
  = mkParticle 0 (0.5 * CANVAS_WIDTH) (-10) ((0.5 - 0.5) * (3 + 0)) (0 * (3 + 0))
               background_photon 400 [].
Proof.
  assert (Hz : 0 <= stall 1%nat < 1) by (unfold stall; lra).
  rewrite (spawnBackgroundParticle_value fe stall Hz). cbv zeta.
  assert (He : edgeOfDraw (stall 1%nat) = Top).
  { unfold edgeOfDraw, stall.
    assert (H : Rltb 0 (1 / 4) = true) by (apply Rltb_true; lra).
    rewrite H. reflexivity. }
  rewrite He. reflexivity.
Qed.

Lemma app_particle_at_rest_stays_witness :
  List.length (lifetime AppTsx (repeat (80, halves) 1000)
                        (fst (spawnBackgroundParticle AppTsx stall)) 0) = 1000%nat.
Proof.
  rewrite <- (repeat_length (80, halves) 1000) at 2.
  apply (app_particle_at_rest_stays (repeat (80, halves) 1000)
           (fst (spawnBackgroundParticle AppTsx stall)) 0%Z);
    rewrite spawnBackgroundParticle_stall.
  - cbn [vx]. lra.
  - cbn [vy]. lra.
  - cbn [life]. lia.
  - unfold inBounds, CANVAS_WIDTH. cbn [x y]. lra.
  - intros [H _]. discriminate.
  - apply Forall_forall. intros e He. apply repeat_spec in He. subst e.
    unfold inDetector, CANVAS_WIDTH. cbn [x y fst]. lra.
Defined.

(** ** Counts and the size of the store *)

Lemma bind_post {A B : Type} (m : Rand A) (f : A -> Rand B)
    (P : A -> Prop) (Q : B -> Prop) (g : rng) :
  (forall g0, P (fst (m g0))) ->
  (forall a g0, P a -> Q (fst (f a g0))) ->
  Q (fst (bind m f g)).
Proof.
  intros Hm Hf. unfold bind. specialize (Hm g). destruct (m g) as [a g']. apply Hf, Hm.
Qed.

(** One callback: the counter stays or rises by 1, and then the particle dies. *)
Lemma updateParticle_consumes (fe : frontend) (dX : R) (p : Particle) (c : Z) (g : rng) :
  snd (fst (updateParticle fe dX p c g)) = c
  \/ (snd (fst (updateParticle fe dX p c g)) = (c + 1)%Z
      /\ life (fst (fst (updateParticle fe dX p c g))) = 0%Z).
Proof.
  pose proof (updateParticle_detection fe dX p c g) as [Hhit Hmiss]. cbv zeta in Hhit, Hmiss.
  destruct (hitsDetector dX (fst (fst (updateParticle fe dX p c g)))).
  - right. apply Hhit. reflexivity.
  - left. apply Hmiss. reflexivity.
Qed.

Lemma forEachParticle_conservation (fe : frontend) (dX : R) (ps : list Particle) :
  forall (c : Z) (g : rng),
    (c <= snd (fst (forEachParticle fe dX ps c g)))%Z /\
    (Z.of_nat (List.length (removeDead fe (fst (fst (forEachParticle fe dX ps c g)))))
     + (snd (fst (forEachParticle fe dX ps c g)) - c)
     <= Z.of_nat (List.length ps))%Z.
Proof.
  induction ps as [| p ps IH]; intros c g.
  - simpl. destruct fe; simpl; lia.
  - simpl forEachParticle. unfold bind, ret.
    pose proof (updateParticle_consumes fe dX p c g) as Hc.
    destruct (updateParticle fe dX p c g) as [[p' c0] g0]. cbn [fst snd] in Hc.
    specialize (IH c0 g0).
    destruct (forEachParticle fe dX ps c0 g0) as [[ps' c1] g1]. cbn [fst snd] in *.
    change (p' :: ps') with ([p'] ++ ps'). rewrite removeDead_app, length_app.
    assert (Hone : (List.length (removeDead fe [p']) <= 1)%nat).
    { rewrite removeDead_filter. simpl. destruct (0 <? life p')%Z; simpl; lia. }
    destruct Hc as [Hc | [Hc Hl]].
    + cbn [List.length]. lia.
    + rewrite removeDead_dead in * by lia. cbn [List.length]. lia.
Qed.

Lemma updateParticles_conservation (fe : frontend) (d : R) (ps : list Particle)
    (c : Z) (g : rng) :
  (c <= snd (fst (updateParticles fe d ps c g)))%Z /\
  (Z.of_nat (List.length (fst (fst (updateParticles fe d ps c g))))
   + (snd (fst (updateParticles fe d ps c g)) - c)
   <= Z.of_nat (List.length ps))%Z.
Proof.
  unfold updateParticles, bind, ret. cbv zeta.
  pose proof (forEachParticle_conservation fe (detectorXOf d) ps c g) as H.
  destruct (forEachParticle fe (detectorXOf d) ps c g) as [[ps' c'] g']. exact H.
Qed.

Lemma spawnParticles_length (n : nat) :
  forall (ps : list Particle) (g : rng),
    List.length (fst (spawnParticles n ps g)) = (List.length ps + n)%nat.
Proof.
  induction n as [| n IH]; intros ps g; [simpl; lia |].
  simpl. unfold bind. rewrite spawnParticle_value. rewrite IH, length_app. simpl. lia.
Qed.

Lemma tick_conservation (fe : frontend) (st : State) (g : rng) :
  (counts st <= counts (fst (tick fe st g)))%Z /\
  (Z.of_nat (List.length (particles (fst (tick fe st g))))
   + (counts (fst (tick fe st g)) - counts st)
   <= Z.of_nat (List.length (particles st)) + (if sourceOpen st then 4 else 1))%Z.
Proof.
  unfold tick.
  apply (bind_post _ _
    (fun ps => (Z.of_nat (List.length ps)
                <= Z.of_nat (List.length (particles st)) + (if sourceOpen st then 3 else 0))%Z)
    (fun st' => (counts st <= counts st')%Z /\
                (Z.of_nat (List.length (particles st')) + (counts st' - counts st)
                 <= Z.of_nat (List.length (particles st))
                    + (if sourceOpen st then 4 else 1))%Z)).
  { intros g0. destruct (sourceOpen st); [rewrite spawnParticles_length | simpl]; lia. }
  intros ps1 g1 H1.
  apply (bind_post _ _ (fun _ => True)); [intros; exact I |].
  intros r g2 _.
  apply (bind_post _ _
    (fun ps => (Z.of_nat (List.length ps)
                <= Z.of_nat (List.length (particles st)) + (if sourceOpen st then 4 else 1))%Z)).
  { intros g0. destruct (Rltb r 0.3).
    - apply (bind_post _ _ (fun _ => True)); [intros; exact I |].
      intros q g3 _. simpl. rewrite length_app. simpl. destruct (sourceOpen st); lia.
    - simpl. destruct (sourceOpen st); lia. }
  intros ps2 g3 H2.
  apply (bind_post _ _
    (fun r => (counts st <= snd r)%Z /\
              (Z.of_nat (List.length (fst r)) + (snd r - counts st)
               <= Z.of_nat (List.length ps2))%Z)).
  { intros g0. apply updateParticles_conservation. }
  intros [ps3 c3] g4 [Ha Hb]. cbn [fst snd] in *.
  unfold ret. cbn [fst snd counts particles]. lia.
Qed.

Lemma tick_controls (fe : frontend) (st : State) (g : rng) :
  distanceCm (fst (tick fe st g)) = distanceCm st /\
  sourceOpen (fst (tick fe st g)) = sourceOpen st /\
  showHeatmap (fst (tick fe st g)) = showHeatmap st /\
  doseRateDisplay (fst (tick fe st g)) = doseRateDisplay st.
Proof.
  unfold tick.
  apply (bind_post _ _ (fun _ => True)); [intros; exact I |]. intros ps1 g1 _.
  apply (bind_post _ _ (fun _ => True)); [intros; exact I |]. intros r g2 _.
  apply (bind_post _ _ (fun _ => True)); [intros; exact I |]. intros ps2 g3 _.
  apply (bind_post _ _ (fun _ => True)); [intros; exact I |]. intros [ps3 c3] g4 _.
  unfold ret. cbn. tauto.
Qed.

(** X8: over one tick the counter never falls, and each count it gains is
    a particle gone: the size of the store plus the gain of the counter
    is at most the size before plus the particles spawned, 4 at most when
    the source is open and 1 when it is shielded.  The tick leaves the
    distance, the source state, the view mode and the displayed dose as
    they were. *)
Theorem tick_counts_consume_particles (fe : frontend) (st : State) (g : rng) :
  ((counts st <= counts (fst (tick fe st g)))%Z /\
   (Z.of_nat (List.length (particles (fst (tick fe st g))))
    + (counts (fst (tick fe st g)) - counts st)
    <= Z.of_nat (List.length (particles st)) + (if sourceOpen st then 4 else 1))%Z) /\
  distanceCm (fst (tick fe st g)) = distanceCm st /\
  sourceOpen (fst (tick fe st g)) = sourceOpen st /\
  showHeatmap (fst (tick fe st g)) = showHeatmap st /\
  doseRateDisplay (fst (tick fe st g)) = doseRateDisplay st.
Proof.
  split.
  - apply tick_conservation.
  - apply tick_controls.
Qed.

Lemma run_counts (fe : frontend) (evs : list event) :
  forall (st : State) (g : rng) (n : Z),
    (0 <= counts st)%Z ->
    (counts st + Z.of_nat (List.length (particles st)) <= n)%Z ->
    (0 <= counts (fst (run fe evs st g)))%Z /\
    (counts (fst (run fe evs st g)) + Z.of_nat (List.length (particles (fst (run fe evs st g))))
     <= n + 4 * Z.of_nat (frames evs))%Z.
Proof.
  induction evs as [| ev evs IH]; intros st g n H0 Hn.
  - simpl. lia.
  - simpl run. unfold bind.
    destruct ev as [| | cm | | b |].
    + pose proof (tick_conservation fe st g) as [Ha Hb].
      simpl step. destruct (tick fe st g) as [st' g']. cbn [fst] in *.
      destruct (IH st' g' (n + 4)%Z) as [I1 I2]; [lia | destruct (sourceOpen st); lia |].
      split; [exact I1 |]. cbn [frames]. lia.
    + simpl step. unfold bind, ret.
      destruct (calculateDose (distanceCm st) (sourceOpen st) g) as [s g'].
      apply (IH _ g' n); assumption.
    + apply (IH _ g n); assumption.
    + apply (IH _ g n); assumption.
    + apply (IH _ g n); assumption.
    + simpl step. unfold ret.
      assert (Hr : counts (reset fe st) = 0%Z /\ particles (reset fe st) = [])
        by (destruct fe; split; reflexivity).
      destruct Hr as [Hc Hp].
      apply (IH _ g n); rewrite ?Hc, ?Hp; simpl; lia.
Qed.

(** X9: in every state the simulation reaches the counter is not
    negative, and the counter plus the size of the store is at most 4
    times the number of frames run: a particle is counted at most once,
    and only particles the emitter spawned are counted. *)
Theorem counts_bounded_by_frames (fe : frontend) (slider : Z) (evs : list event) (g : rng) :
  (0 <= counts (fst (run fe evs (initialState fe slider) g)))%Z /\
  (counts (fst (run fe evs (initialState fe slider) g))
   + Z.of_nat (List.length (particles (fst (run fe evs (initialState fe slider) g))))
   <= 4 * Z.of_nat (frames evs))%Z.
Proof.
  pose proof (run_counts fe evs (initialState fe slider) g 0) as H.
  simpl in H. apply H; lia.
Qed.

(** ** The two front-ends side by side *)

Lemma hitsPMMA_frontends (p : Particle) :
  hitsPMMA (recordTrail (move SimulatorJs p)) = hitsPMMA (recordTrail (move AppTsx p)).
Proof.
  destruct (hitsPMMA (recordTrail (move SimulatorJs p))) eqn:E1,
           (hitsPMMA (recordTrail (move AppTsx p))) eqn:E2; try reflexivity.
  - apply hitsPMMA_moved in E1. apply (hitsPMMA_moved AppTsx) in E1. congruence.
  - apply hitsPMMA_moved in E2. apply (hitsPMMA_moved SimulatorJs) in E2. congruence.
Qed.

Lemma hitsDetector_ext (dX : R) (a b : Particle) :
  type a = type b -> x a = x b -> y a = y b -> hitsDetector dX a = hitsDetector dX b.
Proof. intros Ht Hx Hy. unfold hitsDetector. rewrite Ht, Hx, Hy. reflexivity. Qed.

(** X10: on the same particle, counter and draws, the callbacks of
    simulator.js and App.tsx leave the same position, velocity, kind and
    trail, the same counter, and the same draws unread: the two front-ends
    differ in the life of the particle only. *)
Theorem frontends_differ_in_life_only (dX : R) (p : Particle) (c : Z) (g : rng) :
  x (fst (fst (updateParticle SimulatorJs dX p c g)))
  = x (fst (fst (updateParticle AppTsx dX p c g))) /\
  y (fst (fst (updateParticle SimulatorJs dX p c g)))
  = y (fst (fst (updateParticle AppTsx dX p c g))) /\
  vx (fst (fst (updateParticle SimulatorJs dX p c g)))
  = vx (fst (fst (updateParticle AppTsx dX p c g))) /\
  vy (fst (fst (updateParticle SimulatorJs dX p c g)))
  = vy (fst (fst (updateParticle AppTsx dX p c g))) /\
  type (fst (fst (updateParticle SimulatorJs dX p c g)))
  = type (fst (fst (updateParticle AppTsx dX p c g))) /\
  history (fst (fst (updateParticle SimulatorJs dX p c g)))
  = history (fst (fst (updateParticle AppTsx dX p c g))) /\
  snd (fst (updateParticle SimulatorJs dX p c g))
  = snd (fst (updateParticle AppTsx dX p c g)) /\
  snd (updateParticle SimulatorJs dX p c g) = snd (updateParticle AppTsx dX p c g).
Proof.
  pose proof (hitsPMMA_frontends p) as E.
  assert (F : x (fst (fst (updateParticle SimulatorJs dX p c g)))
              = x (fst (fst (updateParticle AppTsx dX p c g))) /\
              y (fst (fst (updateParticle SimulatorJs dX p c g)))
              = y (fst (fst (updateParticle AppTsx dX p c g))) /\
              vx (fst (fst (updateParticle SimulatorJs dX p c g)))
              = vx (fst (fst (updateParticle AppTsx dX p c g))) /\
              vy (fst (fst (updateParticle SimulatorJs dX p c g)))
              = vy (fst (fst (updateParticle AppTsx dX p c g))) /\
              type (fst (fst (updateParticle SimulatorJs dX p c g)))
              = type (fst (fst (updateParticle AppTsx dX p c g))) /\
              history (fst (fst (updateParticle SimulatorJs dX p c g)))
              = history (fst (fst (updateParticle AppTsx dX p c g))) /\
              snd (updateParticle SimulatorJs dX p c g)
              = snd (updateParticle AppTsx dX p c g)).
  { destruct (hitsPMMA (recordTrail (move AppTsx p))) eqn:E2.
    - pose proof (updateParticle_transition SimulatorJs dX p c g E) as H1.
      pose proof (updateParticle_transition AppTsx dX p c g E2) as H2.
      cbv zeta in H1, H2.
      destruct H1 as (A0 & A1 & A2 & A3 & A4 & A5 & A6).
      destruct H2 as (B0 & B1 & B2 & B3 & B4 & B5 & B6).
      repeat split; congruence.
    - pose proof (updateParticle_no_transition SimulatorJs dX p c g E) as H1.
      pose proof (updateParticle_no_transition AppTsx dX p c g E2) as H2.
      cbv zeta in H1, H2.
      destruct H1 as (A0 & A1 & A2 & A3 & A4 & A5 & A6).
      destruct H2 as (B0 & B1 & B2 & B3 & B4 & B5 & B6).
      repeat split; congruence. }
  destruct F as (Fx & Fy & Fvx & Fvy & Ft & Fh & Fg).
  repeat split; try assumption.
  pose proof (hitsDetector_ext dX _ _ Ft Fx Fy) as Hd.
  pose proof (updateParticle_detection SimulatorJs dX p c g) as [S1 S2].
  pose proof (updateParticle_detection AppTsx dX p c g) as [A1 A2].
  cbv zeta in S1, S2, A1, A2.
  destruct (hitsDetector dX (fst (fst (updateParticle AppTsx dX p c g)))).
  - destruct (S1 Hd) as [-> _]. destruct (A1 eq_refl) as [-> _]. reflexivity.
  - rewrite (S2 Hd), (A2 eq_refl). reflexivity.
Qed.

(** X11: the two front-ends spawn the same background photon from the
    same draws: the [default] arm of App.tsx, which would launch from the
    origin with velocity (1, 1), is never taken, and [case 3] of App.tsx
    is the [default] arm of simulator.js. *)
Theorem spawnBackgroundParticle_frontends_agree (g : rng) :
  0 <= g 1%nat < 1 ->
  spawnBackgroundParticle SimulatorJs g = spawnBackgroundParticle AppTsx g.
Proof.
  intros Hr.
  rewrite (surjective_pairing (spawnBackgroundParticle SimulatorJs g)).
  rewrite (surjective_pairing (spawnBackgroundParticle AppTsx g)).
  rewrite !(spawnBackgroundParticle_value _ g Hr), !(spawnBackgroundParticle_rng _ g Hr).
  reflexivity.
Qed.

Lemma spawnBackgroundParticle_frontends_agree_witness :
  spawnBackgroundParticle SimulatorJs halves = spawnBackgroundParticle AppTsx halves.
Proof.
  apply (spawnBackgroundParticle_frontends_agree halves).
  unfold halves. lra.
Defined.

(** X12: the removal loops of the two front-ends compute the same store:
    the backward splice loop of simulator.js keeps, in their order,
    exactly the particles with a positive life, like the filter of
    App.tsx; removing twice removes nothing more. *)
Theorem removal_loops_agree (fe : frontend) (ps : list Particle) :
  removeDead SimulatorJs ps = removeDead AppTsx ps /\
  removeDead fe ps = filter (fun p => (0 <? life p)%Z) ps /\
  (forall p : Particle, In p (removeDead fe ps) <-> In p ps /\ (0 < life p)%Z) /\
  removeDead fe (removeDead fe ps) = removeDead fe ps.
Proof.
  refine (conj _ (conj (removeDead_filter fe ps) (conj _ _))).
  - rewrite !removeDead_filter. reflexivity.
  - intros p. rewrite removeDead_filter, filter_In, Z.ltb_lt. tauto.
  - rewrite !removeDead_filter.
    induction ps as [| p ps IH]; [reflexivity |].
    simpl. destruct (0 <? life p)%Z eqn:E; [| exact IH].
    simpl. rewrite E, IH. reflexivity.
Qed.

(** ** The dose and its display *)

Lemma doseFormula_decreasing_le (a b : R) :
  0 < a -> a <= b -> doseFormula true b <= doseFormula true a.
Proof.
  intros Ha [Hlt | Heq].
  - left. apply doseFormula_decreasing; assumption.
  - subst. right. reflexivity.
Qed.

Lemma doseFormula_above_background (dm : R) : 0 < dm -> B_CONST < doseFormula true dm.
Proof.
  intros Hd. unfold doseFormula, K_CONST, Rdiv.
  assert (0 < exp (- MU_CONST * dm)) by apply exp_pos.
  assert (0 < / (dm * dm)) by (apply Rinv_0_lt_compat; nra).
  assert (0 < exp (- MU_CONST * dm) * / (dm * dm)) by (apply Rmult_lt_0_compat; assumption).
  lra.
Qed.

(** X13: the dose has no singularity.  At 1 cm and closer, down to 0 and
    below, the pure dose with the source open is the dose at 1 cm, between
    1699.8 and 1700.15; at every distance it is above the background 0.15
    and at most that maximum; shielded or open, the dose is never below
    the background. *)
Theorem dose_bounds (d : R) (open : bool) :
  0.15 <= currentDose d open <= currentDose 1 true /\
  0.15 < currentDose d true /\
  (d <= 1 -> currentDose d true = currentDose 1 true) /\
  1699.8 < currentDose 1 true < 1700.15.
Proof.
  assert (Hdm : 0.01 <= Rmax d 1 / 100) by (pose proof (Rmax_r d 1); lra).
  assert (H1 : currentDose 1 true = doseFormula true 0.01).
  { rewrite currentDose_formula. rewrite Rmax_left by lra. f_equal; lra. }
  assert (Hle : currentDose d true <= currentDose 1 true).
  { rewrite H1, currentDose_formula. apply doseFormula_decreasing_le; lra. }
  assert (Hgt : 0.15 < currentDose d true).
  { rewrite currentDose_formula.
    pose proof (doseFormula_above_background (Rmax d 1 / 100)). unfold B_CONST in *. lra. }
  refine (conj _ (conj Hgt (conj _ _))).
  - destruct open; [lra |].
    change (currentDose d false) with B_CONST. unfold B_CONST. lra.
  - intros Hd. rewrite !currentDose_formula. rewrite (Rmax_right d 1) by lra.
    rewrite (Rmax_left 1 1) by lra. reflexivity.
  - rewrite H1. unfold doseFormula, B_CONST, K_CONST, MU_CONST.
    replace (- (0.02) * 0.01) with (- (0.0002)) by lra.
    pose proof (exp_ineq1_le (- (0.0002))) as Hlo.
    assert (Hhi : exp (- (0.0002)) < 1).
    { rewrite <- exp_0. apply exp_increasing. lra. }
    lra.
Qed.

Lemma toFixed3_thousandths (v : R) (n : Z) :
  0 <= v -> IZR n - 1 / 2 <= v * 1000 < IZR n + 1 / 2 ->
  toFixed3 v
  = (let m := padStart 3 (digits n) in
     substring 0 (String.length m - 3) m ++ "." ++ substring (String.length m - 3) 3 m)%string.
Proof.
  intros Hv Hn. unfold toFixed3.
  assert (Hneg : Rltb v 0 = false) by (apply Rltb_false; lra).
  rewrite Hneg.
  assert (Hi : Int_part (v * 1000 + 1 / 2) = n) by (symmetry; apply Int_part_spec; lra).
  rewrite Hi. reflexivity.
Qed.

(** X14: with the source shielded the display shows the background within
    the 2 % noise: whatever the distance and the draw, the string is one
    of 0.147, 0.148, 0.149, 0.150, 0.151, 0.152 and 0.153. *)
Theorem shielded_display_values (d : R) (g : rng) :
  0 <= g 0%nat < 1 ->
  In (fst (calculateDose d false g))
     ["0.147"; "0.148"; "0.149"; "0.150"; "0.151"; "0.152"; "0.153"]%string.
Proof.
  intros Hg.
  change (fst (calculateDose d false g))
    with (toFixed3 (B_CONST * (1 + (g 0%nat * 0.04 - 0.02)))).
  unfold B_CONST.
  set (v := 0.15 * (1 + (g 0%nat * 0.04 - 0.02))).
  assert (Hv : 0.147 <= v < 0.153) by (unfold v; lra).
  destruct (base_Int_part (v * 1000 + 1 / 2)) as [Hlo Hhi].
  set (n := Int_part (v * 1000 + 1 / 2)) in *.
  assert (H1 : (146 < n)%Z) by (apply lt_IZR; lra).
  assert (H2 : (n < 154)%Z) by (apply lt_IZR; lra).
  rewrite (toFixed3_thousandths v n) by lra.
  assert (Hcases : n = 147%Z \/ n = 148%Z \/ n = 149%Z \/ n = 150%Z \/ n = 151%Z
                   \/ n = 152%Z \/ n = 153%Z) by lia.
  clearbody n.
  destruct Hcases as [-> | [-> | [-> | [-> | [-> | [-> | ->]]]]]]; simpl; tauto.
Qed.

Lemma shielded_display_values_witness :
  In (fst (calculateDose 80 false zeros))
     ["0.147"; "0.148"; "0.149"; "0.150"; "0.151"; "0.152"; "0.153"]%string.
Proof.
  apply (shielded_display_values 80 zeros).
  unfold zeros. lra.
Defined.

(** ** The colours of the heatmap *)

Lemma ln_10_pos : 0 < ln 10.
Proof. rewrite <- ln_1. apply ln_increasing; lra. Qed.

Lemma ln_le_compat (a b : R) : 0 < a -> a <= b -> ln a <= ln b.
Proof.
  intros Ha [Hlt | Heq]; [left; apply ln_increasing; assumption | subst; right; reflexivity].
Qed.

Lemma Math_log10_le (a b : R) : 0 < a -> a <= b -> Math_log10 a <= Math_log10 b.
Proof.
  intros Ha Hab. unfold Math_log10, Rdiv.
  apply Rmult_le_compat_r; [left; apply Rinv_0_lt_compat, ln_10_pos | apply ln_le_compat; assumption].
Qed.

Lemma log_span_pos : 0 < Math_log10 50 - Math_log10 B_CONST.
Proof.
  unfold Math_log10, B_CONST, Rdiv.
  assert (ln 0.15 < ln 50) by (apply ln_increasing; lra).
  assert (0 < / ln 10) by (apply Rinv_0_lt_compat, ln_10_pos).
  nra.
Qed.

Lemma colorParam_le (a b : R) : 0 < a -> a <= b -> colorParam a <= colorParam b.
Proof.
  intros Ha Hab. unfold colorParam. cbv zeta.
  apply Rle_max_compat_l, Rle_min_compat_l.
  pose proof (Math_log10_le a b Ha Hab) as Hl.
  pose proof log_span_pos as Hs.
  unfold Rdiv. apply Rmult_le_compat_r; [left; apply Rinv_0_lt_compat, Hs | lra].
Qed.

Lemma colorParam_background : colorParam B_CONST = 0.
Proof.
  unfold colorParam. cbv zeta.
  replace ((Math_log10 B_CONST - Math_log10 B_CONST) / (Math_log10 50 - Math_log10 B_CONST))
    with 0 by (unfold Rdiv; ring).
  rewrite Rmin_right by lra. apply Rmax_left. lra.
Qed.

Lemma colorParam_saturated (v : R) : 50 <= v -> colorParam v = 1.
Proof.
  intros Hv. unfold colorParam. cbv zeta.
  pose proof log_span_pos as Hs.
  assert (Hl : Math_log10 50 <= Math_log10 v) by (apply Math_log10_le; lra).
  assert (Ht : 1 <= (Math_log10 v - Math_log10 B_CONST) / (Math_log10 50 - Math_log10 B_CONST)).
  { apply Rmult_le_reg_r with (Math_log10 50 - Math_log10 B_CONST); [exact Hs |].
    unfold Rdiv. rewrite Rmult_assoc, Rinv_l by lra. lra. }
  rewrite Rmin_left by exact Ht. apply Rmax_right. lra.
Qed.

Lemma fieldValue_open_pos (i j : nat) : B_CONST < fieldValue true i j.
Proof.
  rewrite fieldValue_formula. apply doseFormula_above_background.
  pose proof (Rmax_r (sqrt ((8 * INR i - 125) * (8 * INR i - 125)
                            + (8 * INR j - 200) * (8 * INR j - 200)) / 4 / 100) 0.01).
  lra.
Qed.

(** X15: with the source shielded the heatmap is uniform: each of its
    fills has hue 240, the blue end of the ramp. *)
Theorem shielded_heatmap_is_blue (f : fill) :
  In f (drawHeatmap false) -> fill_hue f = 240.
Proof.
  intros Hf. apply drawHeatmap_blocks in Hf. destruct Hf as (i & j & _ & _ & ->).
  change (fill_hue (drawBlock false i j)) with (240 - colorParam B_CONST * 240).
  rewrite colorParam_background. lra.
Qed.

Lemma shielded_heatmap_is_blue_witness : fill_hue (drawBlock false 15 25) = 240.
Proof.
  apply (shielded_heatmap_is_blue (drawBlock false 15 25)).
  apply drawHeatmap_blocks. exists 15%nat, 25%nat. repeat split; lia.
Defined.

(** X16: with the source open the hue of a block never falls as the
    corner the block is sampled at gets farther from the centre of the
    slab, and it stays between 0 (red) and 240 (blue). *)
Theorem heatmap_hue_grows_with_distance (i j i' j' : nat) :
  (8 * INR i - 125) * (8 * INR i - 125) + (8 * INR j - 200) * (8 * INR j - 200)
  <= (8 * INR i' - 125) * (8 * INR i' - 125) + (8 * INR j' - 200) * (8 * INR j' - 200) ->
  0 <= fill_hue (drawBlock true i j) <= fill_hue (drawBlock true i' j') /\
  fill_hue (drawBlock true i' j') <= 240.
Proof.
  intros Hd.
  change (fill_hue (drawBlock true i j)) with (240 - colorParam (fieldValue true i j) * 240).
  change (fill_hue (drawBlock true i' j')) with (240 - colorParam (fieldValue true i' j') * 240).
  pose proof (colorParam_range (fieldValue true i j)) as R1.
  pose proof (colorParam_range (fieldValue true i' j')) as R2.
  assert (Hf : fieldValue true i' j' <= fieldValue true i j).
  { rewrite !fieldValue_formula. apply doseFormula_decreasing_le.
    - pose proof (Rmax_r (sqrt ((8 * INR i - 125) * (8 * INR i - 125)
                                + (8 * INR j - 200) * (8 * INR j - 200)) / 4 / 100) 0.01).
      lra.
    - apply Rle_max_compat_r.
      pose proof (sqrt_le_1_alt _ _ Hd). lra. }
  assert (Hc : colorParam (fieldValue true i' j') <= colorParam (fieldValue true i j)).
  { apply colorParam_le; [| exact Hf].
    pose proof (fieldValue_open_pos i' j'). unfold B_CONST in *. lra. }
  lra.
Qed.

Lemma heatmap_hue_grows_with_distance_witness :
  0 <= fill_hue (drawBlock true 15 25) <= fill_hue (drawBlock true 0 0) /\
  fill_hue (drawBlock true 0 0) <= 240.
Proof.
  apply (heatmap_hue_grows_with_distance 15 25 0 0).
  simpl INR. lra.
Defined.

(** X17: with the source open every block sampled within 20 pixels (5 cm)
    of the centre of the slab is drawn at hue 0: there the field is above
    the value 50 at which the colour scale saturates. *)
Theorem heatmap_saturates_near_slab (i j : nat) :
  (8 * INR i - 125) * (8 * INR i - 125) + (8 * INR j - 200) * (8 * INR j - 200) <= 400 ->
  50 <= fieldValue true i j /\ fill_hue (drawBlock true i j) = 0.
Proof.
  intros Hd.
  assert (Hf : 50 <= fieldValue true i j).
  { rewrite fieldValue_formula.
    set (s := (8 * INR i - 125) * (8 * INR i - 125) + (8 * INR j - 200) * (8 * INR j - 200)) in *.
    assert (Hs : sqrt s <= 20).
    { replace 20 with (sqrt (20 * 20)) by (apply sqrt_square; lra).
      apply sqrt_le_1_alt. lra. }
    assert (Hm : Rmax (sqrt s / 4 / 100) 0.01 <= 0.05) by (apply Rmax_lub; lra).
    assert (H0 : 0 < Rmax (sqrt s / 4 / 100) 0.01)
      by (pose proof (Rmax_r (sqrt s / 4 / 100) 0.01); lra).
    pose proof (doseFormula_decreasing_le _ _ H0 Hm) as Hle.
    assert (H5 : 50 <= doseFormula true 0.05).
    { unfold doseFormula, B_CONST, K_CONST, MU_CONST.
      replace (- (0.02) * 0.05) with (- (0.001)) by lra.
      pose proof (exp_ineq1_le (- (0.001))). lra. }
    lra. }
  split; [exact Hf |].
  change (fill_hue (drawBlock true i j)) with (240 - colorParam (fieldValue true i j) * 240).
  rewrite (colorParam_saturated _ Hf). lra.
Qed.

Lemma heatmap_saturates_near_slab_witness :
  50 <= fieldValue true 16 25 /\ fill_hue (drawBlock true 16 25) = 0.
Proof.
  apply (heatmap_saturates_near_slab 16 25).
  simpl INR. lra.
Defined.

(** X18: the heatmap is 5000 fills, one per square of side 8 of the
    100 by 50 grid: the corners are the multiples of 8 from 0 to 792
    across and from 0 to 392 down, so the squares cover the 800 by 400
    canvas and none reaches outside it. *)
Theorem heatmap_tiles_the_canvas (open : bool) :
  List.length (drawHeatmap open) = 5000%nat /\
  (forall f : fill,
      In f (drawHeatmap open) ->
      fill_side f = 8 /\
      0 <= fill_x f /\ fill_x f + fill_side f <= CANVAS_WIDTH /\
      0 <= fill_y f /\ fill_y f + fill_side f <= CANVAS_HEIGHT) /\
  (forall i j : nat,
      (i < 100)%nat -> (j < 50)%nat ->
      exists f : fill,
        In f (drawHeatmap open) /\ fill_x f = 8 * INR i /\ fill_y f = 8 * INR j).
Proof.
  refine (conj _ (conj _ _)).
  - unfold drawHeatmap. destruct cols_rows as [Hc Hr]. rewrite Hc, Hr.
    rewrite (flat_map_constant_length (c := 50%nat)).
    + rewrite length_seq. reflexivity.
    + intros i _. rewrite length_map, length_seq. reflexivity.
  - intros f Hf. apply drawHeatmap_blocks in Hf. destruct Hf as (i & j & Hi & Hj & ->).
    unfold drawBlock, blockSize, CANVAS_WIDTH, CANVAS_HEIGHT. cbn [fill_side fill_x fill_y].
    assert (0 <= INR i <= 99).
    { split; [apply pos_INR |]. replace 99 with (INR 99) by (simpl; lra).
      apply le_INR. lia. }
    assert (0 <= INR j <= 49).
    { split; [apply pos_INR |]. replace 49 with (INR 49) by (simpl; lra).
      apply le_INR. lia. }
    repeat split; lra.
  - intros i j Hi Hj. exists (drawBlock open i j). split.
    + apply drawHeatmap_blocks. exists i, j. repeat split; assumption.
    + unfold drawBlock, blockSize. cbn [fill_x fill_y]. split; lra.
Qed.

(** ** The beam *)

(** X19: every beta the emitter spawns starts at the mouth of the source
    housing, (90, 200), with an empty trail and life 200, and flies
    forward inside a narrow cone: its horizontal velocity is at least 6
    and below 8, its vertical velocity at least -1 and below 1, so its
    slope is below 1/6; spawning it reads exactly three draws. *)
Theorem spawned_beta_beam (g : rng) :
  valid_rng g ->
  x (fst (spawnParticle g)) = 90 /\ y (fst (spawnParticle g)) = 200 /\
  type (fst (spawnParticle g)) = beta /\ life (fst (spawnParticle g)) = 200%Z /\
  history (fst (spawnParticle g)) = [] /\
  6 <= vx (fst (spawnParticle g)) < 8 /\
  -1 <= vy (fst (spawnParticle g)) < 1 /\
  - vx (fst (spawnParticle g)) <= 6 * vy (fst (spawnParticle g)) < vx (fst (spawnParticle g)) /\
  snd (spawnParticle g) = (fun n => g (3 + n)%nat).
Proof.
  intros Hg. pose proof (Hg 0%nat). pose proof (Hg 2%nat).
  rewrite spawnParticle_value. unfold SOURCE_X, CENTER_Y, CANVAS_HEIGHT. simpl.
  repeat split; try reflexivity; lra.
Qed.

Lemma spawned_beta_beam_witness :
  x (fst (spawnParticle halves)) = 90 /\ y (fst (spawnParticle halves)) = 200 /\
  type (fst (spawnParticle halves)) = beta /\ life (fst (spawnParticle halves)) = 200%Z /\
  history (fst (spawnParticle halves)) = [] /\
  6 <= vx (fst (spawnParticle halves)) < 8 /\
  -1 <= vy (fst (spawnParticle halves)) < 1 /\
  - vx (fst (spawnParticle halves)) <= 6 * vy (fst (spawnParticle halves))
    < vx (fst (spawnParticle halves)) /\
  snd (spawnParticle halves) = (fun n => halves (3 + n)%nat).
Proof.
  apply (spawned_beta_beam halves).
  intros n. unfold halves. lra.
Defined.
